(** * Shotcut proxy manager (src/proxymanager.cpp)

    A shallow embedding of the proxy manager: the cache locator, the
    descriptor builders for video and still-image proxies, and the project
    document rewriter ([filterXML] with its helper [processProperties]).

    Conventions.
    - A [QString] is a [string]. [QString::arg] with a string argument is
      [QStr.arg], which replaces the place markers of the lowest number;
      with an [int] argument (lines 108, 153, 222, 223) and on a literal
      template with a single marker (lines 106, 221) it is written as the
      concatenation it amounts to, a decimal carrying no place marker.
    - A C [int] is a [Z] of the [int] range; decimal rendering is
      [QStr.number]. The conversions of [qRound] stay in that range.
    - A [QStringList]/[QVector] is a [list]; [<<] appends at the end.
    - [Mlt::Producer] properties are a finite map from names to values.
    - The file system, the job queue and the XML reader/writer are explicit
      state: every mutating primitive also appends to an effect log, so that
      the order of effects can be stated. *)

From Stdlib Require Import ZArith String Ascii List Lia.
From Stdlib Require Import Floats.SpecFloat DecimalString.
From stdpp Require Import base gmap strings list.

Open Scope string_scope.
Open Scope Z_scope.
Open Scope list_scope.

(* ===================================================================== *)
(** * Definitions *)
(* ===================================================================== *)

(** ** QString operations used by the source *)
Module QStr.

Definition isEmpty (s : string) : bool :=
  match s with EmptyString => true | String _ _ => false end.

Definition size (s : string) : nat := String.length s.

(** [s.startsWith(p)] *)
Definition startsWith (s p : string) : bool := String.prefix p s.

(** [s.endsWith(c)] for a single character [c] *)
Fixpoint endsWith (s : string) (c : ascii) : bool :=
  match s with
  | EmptyString => false
  | String a EmptyString => bool_decide (a = c)
  | String _ r => endsWith r c
  end.

(** [s.mid(n)]: the part of [s] from position [n] on; empty when [n] is
    beyond the end. *)
Fixpoint mid (n : nat) (s : string) : string :=
  match n, s with
  | O, _ => s
  | S _, EmptyString => EmptyString
  | S k, String _ r => mid k r
  end.

(** [QString::number(n)] / [.arg(int)]: decimal rendering *)
Definition number (n : Z) : string := NilZero.string_of_int (Z.to_int n).

(** [s.contains(sub)] *)
Fixpoint contains (s sub : string) : bool :=
  String.prefix sub s ||
  match s with
  | EmptyString => false
  | String _ r => contains r sub
  end.

(** A character occurs in a string. *)
Fixpoint hasChar (c : ascii) (s : string) : bool :=
  match s with
  | EmptyString => false
  | String a r => bool_decide (a = c) || hasChar c r
  end.

(** *** [QString::arg(const QString &a)], as Qt 5 implements it

    A place marker is [%] followed by one or two decimal digits, with an
    optional [L] between them ([%1], [%27], [%L3]). [arg] replaces every marker that
    carries the lowest number found in the string, and leaves the string as
    it is when it holds no marker. *)

Definition digitValue (c : ascii) : option nat :=
  let n := nat_of_ascii c in
  if (48 <=? n)%nat && (n <=? 57)%nat then Some (n - 48)%nat else None.

(** A stretch of plain text, or a place marker with its number and the
    text it was written as. *)
Inductive ArgPiece :=
| Text (s : string)
| Marker (n : nat) (raw : string).

(** Where the scan stands: in plain text, behind [%] or [%L] (held in
    [raw]), or behind the first digit of a marker. *)
Inductive ArgState :=
| Plain
| Percent (raw : string)
| Digit (d : nat) (raw : string).

Fixpoint pieces (st : ArgState) (s : string) : list ArgPiece :=
  match s with
  | EmptyString =>
      match st with
      | Plain => []
      | Percent raw => [Text raw]
      | Digit d raw => [Marker d raw]
      end
  | String c r =>
      match st with
      | Plain =>
          if bool_decide (c = "%"%char) then pieces (Percent "%") r
          else Text (String c "") :: pieces Plain r
      | Percent raw =>
          match digitValue c with
          | Some d => pieces (Digit d (raw +:+ String c "")) r
          | None =>
              if bool_decide (c = "L"%char) && bool_decide (raw = "%")
              then pieces (Percent "%L") r
              else if bool_decide (c = "%"%char)
              then Text raw :: pieces (Percent "%") r
              else Text (raw +:+ String c "") :: pieces Plain r
          end
      | Digit d raw =>
          match digitValue c with
          | Some d2 =>
              Marker (10 * d + d2) (raw +:+ String c "") :: pieces Plain r
          | None =>
              if bool_decide (c = "%"%char)
              then Marker d raw :: pieces (Percent "%") r
              else Marker d raw :: Text (String c "") :: pieces Plain r
          end
      end
  end.

Definition markerNumber (p : ArgPiece) : option nat :=
  match p with
  | Text _ => None
  | Marker n _ => Some n
  end.

(** The lowest marker number of a string, if it holds a marker. *)
Definition lowestMarker (ps : list ArgPiece) : option nat :=
  match omap markerNumber ps with
  | [] => None
  | n :: ns => Some (fold_left Nat.min ns n)
  end.

Definition fill (m : nat) (a : string) (p : ArgPiece) : string :=
  match p with
  | Text t => t
  | Marker n raw => if (n =? m)%nat then a else raw
  end.

Definition join (l : list string) : string := fold_right String.append "" l.

Definition arg (s a : string) : string :=
  let ps := pieces Plain s in
  match lowestMarker ps with
  | None => s
  | Some m => join (map (fill m a) ps)
  end.

End QStr.

(** ** Property names of shotcut_mlt_properties.h *)
Module Keys.

(** Modelled from the spec: the header shotcut_mlt_properties.h, which
    defines these four constants, is not among the sources. The spec
    (section 3) calls the marker [isProxy] and the stash
    [originalResource]; the other two keys are only ever read. *)
Definition kIsProxyProperty : string := "isProxy".
Definition kOriginalResourceProperty : string := "originalResource".
Definition kDisableProxyProperty : string := "disableProxy".
Definition kShotcutSequenceProperty : string := "sequence".

End Keys.
Export Keys.

(** ** The document rewriter *)

(** [typedef QPair<QString, QString> MltProperty;] *)
Definition MltProperty : Type := string * string.

(** An attribute of a start tag, as [QXmlStreamAttribute] holds it. *)
Record Attribute := mkAttribute {
  attrNamespaceUri : string;
  attrName : string;
  attrValue : string
}.

(** What [QXmlStreamReader::readNext] hands to the loop of [filterXML].
    For a start tag, [elementText] is what [readElementText()] returns when
    the loop calls it there (it is called for [property] elements only, and
    leaves the reader on the matching end tag, which [readNext] therefore
    never delivers). *)
Inductive Token :=
| Characters (text : string)
| Comment (text : string)
| DTD (text : string)
| EntityReference (name : string)
| ProcessingInstruction (target data : string)
| StartDocument (version : string) (standalone : bool)
| EndDocument
| StartElement (namespaceUri name : string) (attributes : list Attribute)
               (elementText : string)
| EndElement (name : string)
| NoToken
| Invalid.

(** The calls made on the [QXmlStreamWriter], in order. *)
Inductive WriteOp :=
| WCharacters (text : string)
| WComment (text : string)
| WDTD (text : string)
| WEntityReference (name : string)
| WProcessingInstruction (target data : string)
| WStartDocument (version : string) (standalone : bool)
| WEndDocument
| WStartElement (qualifiedName : string)
| WStartElementNS (namespaceUri name : string)
| WAttribute (qualifiedName value : string)
| WAttributeCopy (a : Attribute)
| WEndElement.

(** [xml.attributes().value("name").toString()] *)
Fixpoint attributeValue (attrs : list Attribute) (qname : string) : string :=
  match attrs with
  | [] => ""
  | a :: r => if decide (attrName a = qname) then attrValue a
              else attributeValue r qname
  end.

(** The four locals of [processProperties] set by its first loop. *)
Record Scan := mkScan {
  isProxy : bool;
  newResource : string;
  service : string;
  speed : string
}.

Definition scanInit : Scan :=
  {| isProxy := false; newResource := ""; service := ""; speed := "1" |}.

(** Body of the first loop, lines 245-257. *)
Definition scanStep (a : Scan) (p : MltProperty) : Scan :=
  if decide (p.1 = kIsProxyProperty) then
    {| isProxy := true; newResource := newResource a;
       service := service a; speed := speed a |}
  else if decide (p.1 = kOriginalResourceProperty) then
    {| isProxy := isProxy a; newResource := p.2;
       service := service a; speed := speed a |}
  else if QStr.isEmpty (newResource a) && bool_decide (p.1 = "resource") then
    {| isProxy := isProxy a; newResource := p.2;
       service := service a; speed := speed a |}
  else if decide (p.1 = "mlt_service") then
    {| isProxy := isProxy a; newResource := newResource a;
       service := p.2; speed := speed a |}
  else if decide (p.1 = "warp_speed") then
    {| isProxy := isProxy a; newResource := newResource a;
       service := service a; speed := p.2 |}
  else a.

Definition scanProperties (properties : list MltProperty) : Scan :=
  fold_left scanStep properties scanInit.

(** "Convert to relative", lines 266-271. *)
Definition relativize (root newResource : string) : string :=
  if negb (QStr.isEmpty root) && QStr.startsWith newResource root then
    if QStr.endsWith root "/" then QStr.mid (QStr.size root) newResource
    else QStr.mid (QStr.size root + 1) newResource
  else newResource.

(** The second loop, lines 262-283: [newResource] is a mutable local that
    the [resource] branch overwrites, so it is threaded through. *)
Fixpoint filterProperties (root service speed newResource : string)
    (properties : list MltProperty) : list MltProperty :=
  match properties with
  | [] => []
  | p :: rest =>
      if decide (p.1 = "resource") then
        let newResource' := relativize root newResource in
        (if decide (service = "timewarp")
         then (p.1, QStr.arg (QStr.arg "%1:%2" speed) newResource')
         else (p.1, newResource'))
          :: filterProperties root service speed newResource' rest
      else if decide (p.1 = "warp_resource") then
        (p.1, newResource)
          :: filterProperties root service speed newResource rest
      else if decide (p.1 ≠ kIsProxyProperty ∧ p.1 ≠ kOriginalResourceProperty) then
        (p.1, p.2) :: filterProperties root service speed newResource rest
      else filterProperties root service speed newResource rest
  end.

(** The sequence [propertiesRef] that the last loop writes. *)
Definition rewriteProperties (root : string) (properties : list MltProperty)
    : list MltProperty :=
  let s := scanProperties properties in
  if isProxy s
  then filterProperties root (service s) (speed s) (newResource s) properties
  else properties.

(** Lines 288-291: one property element. *)
Definition writeProperty (p : MltProperty) : list WriteOp :=
  [WStartElement "property"; WAttribute "name" p.1; WCharacters p.2; WEndElement].

Definition writeProperties (ps : list MltProperty) : list WriteOp :=
  flat_map writeProperty ps.

(** [processProperties(newXml, properties, root)]: what it writes; the
    caller's buffer is empty afterwards ([properties.clear()]). *)
Definition processProperties (root : string) (properties : list MltProperty)
    : list WriteOp :=
  writeProperties (rewriteProperties root properties).

(** Locals of [filterXML] that live across loop iterations. *)
Record Rewriter := mkRewriter {
  properties : list MltProperty;
  isPropertyElement : bool;
  newXml : list WriteOp
}.

Definition rewriterInit : Rewriter :=
  {| properties := []; isPropertyElement := false; newXml := [] |}.

Definition emit (st : Rewriter) (ops : list WriteOp) : Rewriter :=
  {| properties := properties st;
     isPropertyElement := isPropertyElement st;
     newXml := newXml st ++ ops |}.

(** One iteration of the loop of [filterXML], lines 312-363. *)
Definition filterStep (root : string) (st : Rewriter) (t : Token) : Rewriter :=
  match t with
  | Characters text =>
      if isPropertyElement st then st else emit st [WCharacters text]
  | Comment text => emit st [WComment text]
  | DTD text => emit st [WDTD text]
  | EntityReference name => emit st [WEntityReference name]
  | ProcessingInstruction target data =>
      emit st [WProcessingInstruction target data]
  | StartDocument version standalone =>
      emit st [WStartDocument version standalone]
  | EndDocument => emit st [WEndDocument]
  | StartElement ns element attrs text =>
      if decide (element = "property") then
        {| properties := properties st ++ [(attributeValue attrs "name", text)];
           isPropertyElement := true;
           newXml := newXml st |}
      else
        {| properties := [];
           isPropertyElement := false;
           newXml := newXml st ++ processProperties root (properties st)
                       ++ WStartElementNS ns element :: map WAttributeCopy attrs |}
  | EndElement name =>
      if decide (name ≠ "property") then
        {| properties := [];
           isPropertyElement := isPropertyElement st;
           newXml := newXml st ++ processProperties root (properties st)
                       ++ [WEndElement] |}
      else st
  | NoToken | Invalid => st
  end.

(** The loop [while (!xml.atEnd())], started from any state. *)
Definition filterFrom (root : string) (st : Rewriter) (tokens : list Token)
    : Rewriter :=
  fold_left (filterStep root) tokens st.

Definition filterTokens (root : string) (tokens : list Token) : Rewriter :=
  filterFrom root rewriterInit tokens.

(** What the reader delivers for an input file: the tokens up to
    [atEnd()], and [hasError()] afterwards. *)
Record XmlSource := mkXmlSource {
  tokens : list Token;
  hasError : bool
}.

(** The storage [filterXML] works on: [openInput f] is the parsed content of
    [f] when [file.open(ReadOnly | Text)] succeeds, and [openTemp f] is the
    name of the temporary file created next to [f] when [tempFile.open()]
    succeeds. *)
Record Storage := mkStorage {
  openInput : string → option XmlSource;
  openTemp : string → option string
}.

(** Result of [filterXML]: the returned flag, the caller's [fileName]
    afterwards, and the temporary file left behind (its name and what was
    written to it); a [QTemporaryFile] is removed on destruction unless
    [setAutoRemove(false)] was called. *)
Record Outcome := mkOutcome {
  returned : bool;
  fileNameAfter : string;
  retained : option (string * list WriteOp)
}.

(** [bool ProxyManager::filterXML(QString& fileName, const QString& root)] *)
Definition filterXML (disk : Storage) (fileName root : string) : Outcome :=
  match openInput disk fileName with
  | Some xml =>
      match openTemp disk fileName with
      | Some tempName =>
          let st := filterTokens root (tokens xml) in
          if negb (hasError xml) then
            {| returned := true; fileNameAfter := tempName;
               retained := Some (tempName, newXml st) |}
          else
            {| returned := false; fileNameAfter := fileName; retained := None |}
      | None =>
          {| returned := false; fileNameAfter := fileName; retained := None |}
      end
  | None =>
      {| returned := false; fileNameAfter := fileName; retained := None |}
  end.

(** ** Single-precision arithmetic of the resolution threshold *)
Module Fp.

(** IEEE 754 binary32 ([float]) and binary64 ([double]). *)
Definition prec32 : Z := 24.
Definition emax32 : Z := 128.
Definition prec64 : Z := 53.
Definition emax64 : Z := 1024.

(** Conversion of an [int] to a floating-point number, rounding to
    nearest. *)
Definition ofInt (prec emax n : Z) : spec_float :=
  binary_normalize prec emax n 0 false.

(** The [int] range, and [int] addition as the machine performs it. *)
Definition INT_MIN : Z := - 2 ^ 31.
Definition INT_MAX : Z := 2 ^ 31 - 1.

Definition wrapInt (n : Z) : Z := (n + 2 ^ 31) mod 2 ^ 32 - 2 ^ 31.

(** A number cut off toward zero; nothing for an infinity or a NaN. *)
Definition truncate (d : spec_float) : option Z :=
  match d with
  | S754_zero _ => Some 0
  | S754_finite s m e =>
      let v := if 0 <=? e then Z.pos m * 2 ^ e
               else Z.quot (Z.pos m) (2 ^ (- e)) in
      Some (if s then - v else v)
  | _ => None
  end.

(** Conversion [int(d)]: truncation toward zero. Where the truncated value
    does not fit an [int], or [d] is not a number, C++ leaves the
    conversion undefined; the model takes what the conversion instruction
    of x86 delivers then, [INT_MIN]. *)
Definition toInt (d : spec_float) : Z :=
  match truncate d with
  | Some v => if (INT_MIN <=? v) && (v <=? INT_MAX) then v else INT_MIN
  | None => INT_MIN
  end.

(** The literal [0.5]. *)
Definition half (prec emax : Z) : spec_float :=
  binary_normalize prec emax 1 (-1) false.

(** Qt 5's [qRound]:
    [d >= 0.0 ? int(d + 0.5) : int(d - T(int(d-1)) + 0.5) + int(d-1)],
    the sum being one of [int]s. *)
Definition qRound (prec emax : Z) (d : spec_float) : Z :=
  if SFleb (S754_zero false) d then
    toInt (SFadd prec emax d (half prec emax))
  else
    let k := toInt (SFsub prec emax d (ofInt prec emax 1)) in
    wrapInt (toInt (SFadd prec emax
                      (SFsub prec emax d (ofInt prec emax k)) (half prec emax))
             + k).

End Fp.

(** ** File-name suffixes, lines 34-39 *)
Definition kProxyVideoExtension : string := ".mp4".
Definition kProxyPendingVideoExtension : string := ".pending.mp4".
Definition kProxyImageExtension : string := ".jpg".
Definition kProxyPendingImageExtension : string := ".pending.jpg".
(** [1.3f]: the binary32 number nearest to 13/10. *)
Definition kProxyResolutionRatio : spec_float :=
  SFdiv Fp.prec32 Fp.emax32 (Fp.ofInt Fp.prec32 Fp.emax32 13)
                            (Fp.ofInt Fp.prec32 Fp.emax32 10).
Definition kFallbackProxyResolution : Z := 540.

(** ** The clip object, [Mlt::Producer] *)
Module Mlt.

Record Producer := mkProducer {
  is_valid : bool;
  props : gmap string string
}.

(** [producer.get(name)]: [None] is the null pointer. *)
Definition get (p : Producer) (name : string) : option string :=
  props p !! name.

Definition isDigit (c : ascii) : bool :=
  (48 <=? Z.of_nat (nat_of_ascii c)) && (Z.of_nat (nat_of_ascii c) <=? 57).

Fixpoint digitsValue (acc : Z) (s : string) : Z :=
  match s with
  | String c r =>
      if isDigit c
      then digitsValue (10 * acc + (Z.of_nat (nat_of_ascii c) - 48)) r
      else acc
  | EmptyString => acc
  end.

(** Decimal reading of a property value: an optional sign, then digits up
    to the first other character. *)
Definition atoi (s : string) : Z :=
  match s with
  | String "-" r => - digitsValue 0 r
  | String "+" r => digitsValue 0 r
  | _ => digitsValue 0 s
  end.

(** [producer.get_int(name)]: 0 when the property is missing. *)
Definition get_int (p : Producer) (name : string) : Z :=
  match get p name with
  | Some s => atoi s
  | None => 0
  end.

(** [producer.set(name, value)] for a string value; a null value clears
    the property. *)
Definition set (p : Producer) (name : string) (value : option string)
    : Producer :=
  {| is_valid := is_valid p;
     props := match value with
              | Some v => <[name := v]> (props p)
              | None => delete name (props p)
              end |}.

(** [producer.set(name, int)] *)
Definition set_int (p : Producer) (name : string) (value : Z) : Producer :=
  set p name (Some (QStr.number value)).

End Mlt.
Export Mlt.

(** [QString::fromUtf8] / [fromLatin1] of a possibly null C string. *)
Definition fromCString (s : option string) : string := default "" s.

(** ** Configuration and collaborators *)

(** The settings the proxy manager reads ([Settings.xxx()]). *)
Record Settings := mkSettings {
  proxyEnabled : bool;
  proxyFolder : string;
  proxyUseProjectFolder : bool;
  proxyUseHardware : bool;
  encodeHardware : list string;
  playerPreviewScale : Z
}.

(** Everything else the proxy manager calls but does not define:
    [MLT.projectFolder()], [MLT.fullRange(producer)], [Util::getHash],
    [Util::baseName], the effect of [producer.get_frame()] on the clip's
    properties, the C library's reading of a decimal as a [double] behind
    [producer.get_double], and the translation [QObject::tr] of a source
    text by the installed translator (the text itself when none is
    installed). *)
Record Env := mkEnv {
  settings : Settings;
  projectFolder : string;
  fullRange : Producer → bool;
  getHash : Producer → string;
  baseName : string → string;
  get_frame : Producer → Producer;
  strtod : string → spec_float;
  tr : string → string
}.

(** [producer.get_double(name)] *)
Definition get_double (env : Env) (p : Producer) (name : string) : spec_float :=
  match get p name with
  | Some s => strtod env s
  | None => S754_zero false
  end.

(** ** File system and job queue *)

Inductive Node :=
| Dir
| File (size : Z).

#[global] Instance Node_eq_dec : EqDecision Node.
Proof. solve_decision. Defined.

Inductive PostJobAction :=
| ProxyReplacePostJobAction (resource fileName hash : string)
| ProxyFinalizePostJobAction (fileName : string).

Inductive JobKind :=
| FfmpegJob (isOpenLog : bool)
| MeltJob (frameRateNum frameRateDen : Z).

Record Job := mkJob {
  jobKind : JobKind;
  jobName : string;
  jobArgs : list string;
  jobLabel : string;
  postJobAction : PostJobAction
}.

(** Effects on the outside world, in the order they happen. *)
Inductive Effect :=
| EOpenWrite (path : string) (ok : bool)
| EResize (path : string) (size : Z) (ok : bool)
| EClose (path : string)
| EMkdir (path : string) (ok : bool)
| ESubmit (job : Job).

(** The world: the file system ([denied] holds the paths that cannot be
    created or written), the job queue [JOBS], and the log of effects. *)
Record World := mkWorld {
  fs : gmap string Node;
  denied : gset string;
  jobs : list Job;
  log : list Effect
}.

(** *** QDir and QFile, as Qt documents them *)
Module Qt.

(** [QDir(path)]: the empty path is the current directory; one trailing
    separator is dropped. *)
Fixpoint dropTrailingSlash (s : string) : string :=
  match s with
  | EmptyString => EmptyString
  | String c EmptyString => if bool_decide (c = "/"%char) then EmptyString else s
  | String c r => String c (dropTrailingSlash r)
  end.

Definition QDir (path : string) : string :=
  if QStr.isEmpty path then "."
  else if (1 <? String.length path)%nat then dropTrailingSlash path
  else path.

(** [dir.filePath(fileName)] *)
Definition filePath (d fileName : string) : string :=
  if QStr.startsWith fileName "/" then fileName
  else if QStr.isEmpty fileName then d
  else if QStr.isEmpty d || QStr.endsWith d "/" then d +:+ fileName
  else d +:+ "/" +:+ fileName.

(** [dir.exists()] *)
Definition dirExists (w : World) (d : string) : bool :=
  bool_decide (fs w !! d = Some Dir).

(** [dir.exists(name)] *)
Definition exists_ (w : World) (d name : string) : bool :=
  bool_decide (is_Some (fs w !! filePath d name)).

(** [dir.cd(dirName)]: the flag returned and the directory afterwards. *)
Definition cd (w : World) (d dirName : string) : bool * string :=
  if dirExists w (filePath d dirName) then (true, filePath d dirName)
  else (false, d).

(** [dir.mkdir(dirName)] *)
Definition mkdir (w : World) (d dirName : string) : bool * World :=
  let path := filePath d dirName in
  if bool_decide (path ∉ denied w) && bool_decide (fs w !! path = None) then
    (true, {| fs := <[path := Dir]> (fs w); denied := denied w;
              jobs := jobs w; log := log w ++ [EMkdir path true] |})
  else
    (false, {| fs := fs w; denied := denied w;
               jobs := jobs w; log := log w ++ [EMkdir path false] |}).

(** What stands before the last separator of a path, if it has one. *)
Fixpoint dirPart (path : string) : option string :=
  match path with
  | EmptyString => None
  | String c r =>
      match dirPart r with
      | Some d => Some (String c d)
      | None => if bool_decide (c = "/"%char) then Some "" else None
      end
  end.

(** The directory a path lies in: [/] for a path directly under the root,
    [.] for a bare name. *)
Definition parentPath (path : string) : string :=
  match dirPart path with
  | None => "."
  | Some EmptyString => "/"
  | Some d => d
  end.

(** A file can be opened for writing at [path]: the path is not barred, is
    not a directory, and lies in a directory that exists. *)
Definition writable (w : World) (path : string) : bool :=
  bool_decide (path ∉ denied w) && bool_decide (fs w !! path ≠ Some Dir)
  && bool_decide (fs w !! parentPath path = Some Dir).

(** [file.open(QIODevice::WriteOnly)]: creates or truncates the file; fails
    where no file can be opened for writing. *)
Definition openWrite (w : World) (path : string) : bool * World :=
  if writable w path then
    (true, {| fs := <[path := File 0]> (fs w); denied := denied w;
              jobs := jobs w; log := log w ++ [EOpenWrite path true] |})
  else
    (false, {| fs := fs w; denied := denied w;
               jobs := jobs w; log := log w ++ [EOpenWrite path false] |}).

(** [file.resize(sz)] *)
Definition resize (w : World) (path : string) (sz : Z) : World :=
  if bool_decide (path ∉ denied w)
     && match fs w !! path with Some (File _) => true | _ => false end then
    {| fs := <[path := File sz]> (fs w); denied := denied w;
       jobs := jobs w; log := log w ++ [EResize path sz true] |}
  else
    {| fs := fs w; denied := denied w;
       jobs := jobs w; log := log w ++ [EResize path sz false] |}.

(** [file.close()] *)
Definition close (w : World) (path : string) : World :=
  {| fs := fs w; denied := denied w;
     jobs := jobs w; log := log w ++ [EClose path] |}.

End Qt.

(** [JOBS.add(job)] *)
Definition JOBS_add (w : World) (job : Job) : World :=
  {| fs := fs w; denied := denied w;
     jobs := jobs w ++ [job]; log := log w ++ [ESubmit job] |}.

(** ** The proxy manager *)

(** Modelled from the spec: the header proxymanager.h, which declares this
    enumeration, is not among the sources. The source names [Automatic],
    [Progressive] and [InterlacedTopFieldFirst]; the spec (section 4.2)
    names the explicit top- and bottom-field-first modes. *)
Inductive ScanMode :=
| Automatic
| Progressive
| InterlacedTopFieldFirst
| InterlacedBottomFieldFirst.

#[global] Instance ScanMode_eq_dec : EqDecision ScanMode.
Proof. solve_decision. Defined.

Record QPoint := mkQPoint { qx : Z; qy : Z }.

Definition QPoint_isNull (p : QPoint) : bool := (qx p =? 0) && (qy p =? 0).

(** [static bool isValidImage(Mlt::Producer& producer)] *)
Definition isValidImage (producer : Producer) : bool :=
  let service := fromCString (get producer "mlt_service") in
  (bool_decide (service = "qimage") || bool_decide (service = "pixbuf"))
  && negb (bool_decide (get_int producer kShotcutSequenceProperty ≠ 0)).

(** [int ProxyManager::resolution()] *)
Definition resolution (env : Env) : Z :=
  if bool_decide (playerPreviewScale (settings env) ≠ 0)
  then playerPreviewScale (settings env)
  else kFallbackProxyResolution.

(** [QDir ProxyManager::dir()]: the directory, and the world after the
    [mkdir] it may perform. *)
Definition dir (env : Env) (w : World) : string * World :=
  let d := Qt.QDir (projectFolder env) in
  if negb (QStr.isEmpty (projectFolder env)) && Qt.dirExists w d
     && proxyUseProjectFolder (settings env) then
    let subfolder := "proxies" in
    let '(ok, d') := Qt.cd w d subfolder in
    if negb ok then
      let '(made, w') := Qt.mkdir w d subfolder in
      if made then ((Qt.cd w' d subfolder).2, w') else (d, w')
    else (d', w)
  else
    (Qt.QDir (proxyFolder (settings env)), w).

(** [QString ProxyManager::resource(Mlt::Service& producer)] *)
Definition resource (producer : Producer) : string :=
  if bool_decide (get_int producer kIsProxyProperty ≠ 0)
     && bool_decide (is_Some (get producer kOriginalResourceProperty)) then
    fromCString (get producer kOriginalResourceProperty)
  else if bool_decide (get producer "mlt_service" = Some "timewarp") then
    fromCString (get producer "warp_resource")
  else fromCString (get producer "resource").

(** "Touch file to make it in progress", lines 86-90 and 211-215. *)
Definition touch (w : World) (fileName : string) : World :=
  let '(_, w1) := Qt.openWrite w fileName in
  let w2 := Qt.resize w1 fileName 0 in
  Qt.close w2 fileName.

(** Lines 103-108: the deinterlace and scale stages. *)
Definition videoFilters (env : Env) (scanMode : ScanMode) : string :=
  let filters :=
    if decide (scanMode = Automatic) then "yadif=deint=interlaced,"
    else if decide (scanMode ≠ Progressive) then
      "yadif=parity=" +:+
        (if decide (scanMode = InterlacedTopFieldFirst) then "tff" else "bff")
        +:+ ","
    else "" in
  filters +:+ "scale=width=-2:height=" +:+ QStr.number (resolution env).

(** Lines 109-111. *)
Definition hwFilters (env : Env) : string :=
  let hwCodecs := encodeHardware (settings env) in
  if proxyUseHardware (settings env)
     && (bool_decide ("hevc_vaapi" ∈ hwCodecs)
         || bool_decide ("h264_vaapi" ∈ hwCodecs))
  then ",format=nv12,hwupload" else "".

(** The argument pushed after [-vf], lines 112-118. *)
Definition videoFilterArg (env : Env) (fullRange : bool) (scanMode : ScanMode)
    : string :=
  if fullRange
  then videoFilters env scanMode +:+ ":in_range=full:out_range=full" +:+ hwFilters env
  else videoFilters env scanMode +:+ ":in_range=mpeg:out_range=mpeg" +:+ hwFilters env.

(** The [switch] on [meta.media.colorspace], lines 119-151. *)
Definition colorspaceArgs (colorspace height : Z) : list string :=
  if decide (colorspace = 601) then
    if decide (height = 576) then
      ["-color_primaries"; "bt470bg"; "-color_trc"; "smpte170m"; "-colorspace"; "bt470bg"]
    else
      ["-color_primaries"; "smpte170m"; "-color_trc"; "smpte170m"; "-colorspace"; "smpte170m"]
  else if decide (colorspace = 170) then
    ["-color_primaries"; "smpte170m"; "-color_trc"; "smpte170m"; "-colorspace"; "smpte170m"]
  else if decide (colorspace = 240) then
    ["-color_primaries"; "smpte240m"; "-color_trc"; "smpte240m"; "-colorspace"; "smpte240m"]
  else if decide (colorspace = 470) then
    ["-color_primaries"; "bt470bg"; "-color_trc"; "bt470bg"; "-colorspace"; "bt470bg"]
  else
    ["-color_primaries"; "bt709"; "-color_trc"; "bt709"; "-colorspace"; "bt709"].

(** The hardware encoder cascade, lines 157-183. *)
Definition hardwareEncoderArgs (env : Env) : list string :=
  let hwCodecs := encodeHardware (settings env) in
  if proxyUseHardware (settings env) then
    if bool_decide ("hevc_nvenc" ∈ hwCodecs) then
      ["-codec:v"; "hevc_nvenc"; "-rc"; "constqp"; "-vglobal_quality"; "37"]
    else if bool_decide ("hevc_qsv" ∈ hwCodecs) then
      ["-load_plugin"; "hevc_hw"; "-codec:v"; "hevc_qsv";
       "-global_quality:v"; "36"; "-look_ahead"; "1"]
    else if bool_decide ("hevc_amf" ∈ hwCodecs) then
      ["-codec:v"; "hevc_amf"; "-rc"; "1"; "-qp_i"; "32"; "-qp_p"; "32"]
    else if bool_decide ("hevc_vaapi" ∈ hwCodecs) then
      ["-init_hw_device"; "vaapi=vaapi0:,connection_type=x11";
       "-filter_hw_device"; "vaapi0"; "-codec:v"; "hevc_vaapi"; "-qp"; "37"]
    else if bool_decide ("h264_vaapi" ∈ hwCodecs) then
      ["-init_hw_device"; "vaapi=vaapi0:,connection_type=x11";
       "-filter_hw_device"; "vaapi0"; "-codec:v"; "h264_vaapi"; "-qp"; "30"]
    else if bool_decide ("hevc_videotoolbox" ∈ hwCodecs) then
      ["-codec:v"; "hevc_videotoolbox"; "-b:v"; "2M"]
    else []
  else [].

(** The arguments up to and including [-vf] and its value with the range
    flags, lines 92-118. *)
Definition videoArgsFilter (env : Env) (producer : Producer)
    (fullRange : bool) (scanMode : ScanMode) (resource : string) : list string :=
  let args := [] in
  let args := args ++ ["-loglevel"; "verbose"] in
  let args := args ++ ["-i"; resource] in
  let args := args ++ ["-max_muxing_queue_size"; "9999"] in
  let args :=
    if bool_decide (get_int producer "video_index" < get_int producer "audio_index")
    then args ++ ["-map"; "0:v?"; "-map"; "0:a?"]
    else args ++ ["-map"; "0:a?"; "-map"; "0:v?"] in
  let args := args ++ ["-map_metadata"; "0"; "-ignore_unknown"] in
  let args := args ++ ["-vf"] in
  if fullRange
  then (args ++ [videoFilterArg env fullRange scanMode]) ++ ["-color_range"; "jpeg"]
  else (args ++ [videoFilterArg env fullRange scanMode]) ++ ["-color_range"; "mpeg"].

(** The complete argument list, lines 92-190. *)
Definition videoArgs (env : Env) (producer : Producer)
    (fullRange : bool) (scanMode : ScanMode) (aspectRatio : QPoint)
    (resource fileName : string) : list string :=
  let args := videoArgsFilter env producer fullRange scanMode resource in
  let args := args ++ colorspaceArgs (get_int producer "meta.media.colorspace")
                                     (get_int producer "meta.media.height") in
  let args :=
    if negb (QPoint_isNull aspectRatio)
    then args ++ ["-aspect";
                  QStr.number (qx aspectRatio) +:+ ":" +:+ QStr.number (qy aspectRatio)]
    else args in
  let args := args ++ ["-f"; "mp4"; "-codec:a"; "ac3"; "-b:a"; "256k"] in
  let args := args ++ ["-pix_fmt"; "yuv420p"] in
  let args := args ++ hardwareEncoderArgs env in
  let args :=
    if negb (bool_decide ("-codec:v" ∈ args))
    then args ++ ["-codec:v"; "libx264"; "-preset"; "veryfast"; "-crf"; "23"]
    else args in
  let args := args ++ ["-g"; "1"; "-bf"; "0"] in
  args ++ ["-y"; fileName].

(** Lines 194-198 and 228-232. *)
Definition postAction (replace : bool) (resource fileName hash : string)
    : PostJobAction :=
  if replace then ProxyReplacePostJobAction resource fileName hash
  else ProxyFinalizePostJobAction fileName.

(** [QObject::tr("Make proxy for %1").arg(Util::baseName(resource))] *)
Definition jobLabelFor (env : Env) (resource : string) : string :=
  QStr.arg (tr env "Make proxy for %1") (baseName env resource).

(** The job built by [generateVideoProxy] for a given pending file. *)
Definition videoJob (env : Env) (producer : Producer) (fullRange : bool)
    (scanMode : ScanMode) (aspectRatio : QPoint) (replace : bool)
    (fileName : string) : Job :=
  let resource := resource producer in
  let hash := getHash env producer in
  {| jobKind := FfmpegJob false;
     jobName := fileName;
     jobArgs := videoArgs env producer fullRange scanMode aspectRatio resource fileName;
     jobLabel := jobLabelFor env resource;
     postJobAction := postAction replace resource fileName hash |}.

(** [void ProxyManager::generateVideoProxy(producer, fullRange, scanMode,
    aspectRatio, replace)] *)
Definition generateVideoProxy (env : Env) (w : World) (producer : Producer)
    (fullRange : bool) (scanMode : ScanMode) (aspectRatio : QPoint)
    (replace : bool) : World :=
  let hash := getHash env producer in
  let '(d, w) := dir env w in
  let fileName := Qt.filePath d (hash +:+ kProxyPendingVideoExtension) in
  let w := touch w fileName in
  JOBS_add w (videoJob env producer fullRange scanMode aspectRatio replace fileName).

(** The arguments of the still-image job, lines 217-224. *)
Definition imageArgs (env : Env) (producer : Producer)
    (resource fileName : string) : list string :=
  let width := get_double env producer "meta.media.width" in
  let height := get_double env producer "meta.media.height" in
  let args := [] in
  let args := args ++ ["-verbose"; "-profile"; "square_pal"] in
  let args := args ++ [resource; "out=0"; "-consumer"] in
  let args := args ++ ["avformat:" +:+ fileName] in
  let args := args ++
    ["width=" +:+ QStr.number
       (Fp.qRound Fp.prec64 Fp.emax64
          (SFmul Fp.prec64 Fp.emax64
             (SFdiv Fp.prec64 Fp.emax64 width height)
             (Fp.ofInt Fp.prec64 Fp.emax64 (resolution env))))] in
  let args := args ++ ["height=" +:+ QStr.number (resolution env)] in
  args ++ ["pix_fmt=yuvj422p"; "color_range=full"].

Definition imageJob (env : Env) (producer : Producer) (replace : bool)
    (fileName : string) : Job :=
  let resource := resource producer in
  let hash := getHash env producer in
  {| jobKind := MeltJob 1 1;
     jobName := fileName;
     jobArgs := imageArgs env producer resource fileName;
     jobLabel := jobLabelFor env resource;
     postJobAction := postAction replace resource fileName hash |}.

(** [void ProxyManager::generateImageProxy(producer, replace)] *)
Definition generateImageProxy (env : Env) (w : World) (producer : Producer)
    (replace : bool) : World :=
  let hash := getHash env producer in
  let '(d, w) := dir env w in
  let fileName := Qt.filePath d (hash +:+ kProxyPendingImageExtension) in
  let w := touch w fileName in
  JOBS_add w (imageJob env producer replace fileName).

(** The file name probed by [fileExists] (ready suffixes) and [filePending]
    (pending suffixes); [None] is the early [return false]. *)
Definition proxyFileName (env : Env) (producer : Producer)
    (videoExtension imageExtension : string) : option string :=
  let service := fromCString (get producer "mlt_service") in
  if QStr.startsWith service "avformat" then
    Some (getHash env producer +:+ videoExtension)
  else if isValidImage producer then
    Some (getHash env producer +:+ imageExtension)
  else None.

(** The probe shared by [fileExists] and [filePending], lines 396 and 412:
    [(projectDir.cd("proxies") && projectDir.exists(fileName))
     || proxyDir.exists(fileName)]. *)
Definition probe (env : Env) (w : World) (fileName : string) : bool :=
  let proxyDir := Qt.QDir (proxyFolder (settings env)) in
  let projectDir := Qt.QDir (projectFolder env) in
  (let '(ok, projectDir) := Qt.cd w projectDir "proxies" in
   ok && Qt.exists_ w projectDir fileName)
  || Qt.exists_ w proxyDir fileName.

(** [bool ProxyManager::fileExists(Mlt::Producer& producer)] *)
Definition fileExists (env : Env) (w : World) (producer : Producer) : bool :=
  match proxyFileName env producer kProxyVideoExtension kProxyImageExtension with
  | Some fileName => probe env w fileName
  | None => false
  end.

(** [bool ProxyManager::filePending(Mlt::Producer& producer)] *)
Definition filePending (env : Env) (w : World) (producer : Producer) : bool :=
  match proxyFileName env producer
          kProxyPendingVideoExtension kProxyPendingImageExtension with
  | Some fileName => probe env w fileName
  | None => false
  end.

(** [qRound(kProxyResolutionRatio * resolution())], lines 443 and 451:
    the product is formed in single precision. *)
Definition threshold (env : Env) : Z :=
  Fp.qRound Fp.prec32 Fp.emax32
    (SFmul Fp.prec32 Fp.emax32 kProxyResolutionRatio
       (Fp.ofInt Fp.prec32 Fp.emax32 (resolution env))).

(** [bool ProxyManager::generateIfNotExists(producer, replace)]: the flag
    returned, the clip afterwards and the world afterwards. *)
Definition generateIfNotExists (env : Env) (w : World) (producer : Producer)
    (replace : bool) : bool * Producer * World :=
  if proxyEnabled (settings env) && is_valid producer
     && negb (bool_decide (get_int producer kDisableProxyProperty ≠ 0))
     && negb (bool_decide (get_int producer kIsProxyProperty ≠ 0)) then
    let service := fromCString (get producer "mlt_service") in
    if fileExists env w producer then
      let proxyDir := Qt.QDir (proxyFolder (settings env)) in
      let projectDir := Qt.QDir (projectFolder env) in
      match proxyFileName env producer kProxyVideoExtension kProxyImageExtension with
      | None => (false, producer, w)
      | Some fileName =>
          let producer := set_int producer kIsProxyProperty 1 in
          let producer :=
            set producer kOriginalResourceProperty (get producer "resource") in
          let producer :=
            if Qt.exists_ w projectDir fileName
            then set producer "resource" (Some (Qt.filePath projectDir fileName))
            else set producer "resource" (Some (Qt.filePath proxyDir fileName)) in
          (true, producer, w)
      end
    else if negb (filePending env w producer) then
      if QStr.startsWith service "avformat" then
        let producer := get_frame env producer in
        let threshold := threshold env in
        if bool_decide (get_int producer "meta.media.width" > threshold)
           && bool_decide (get_int producer "meta.media.height" > threshold) then
          (false, producer,
           generateVideoProxy env w producer (fullRange env producer)
             Automatic {| qx := 0; qy := 0 |} replace)
        else (false, producer, w)
      else if isValidImage producer then
        let producer := get_frame env producer in
        let threshold := threshold env in
        if bool_decide (get_int producer "meta.media.width" > threshold)
           && bool_decide (get_int producer "meta.media.height" > threshold) then
          (false, producer, generateImageProxy env w producer replace)
        else (false, producer, w)
      else (false, producer, w)
    else (false, producer, w)
  else (false, producer, w).

(** The four accessors, lines 462-480. *)
Definition videoFilenameExtension : string := kProxyVideoExtension.
Definition pendingVideoExtension : string := kProxyPendingVideoExtension.
Definition imageFilenameExtension : string := kProxyImageExtension.
Definition pendingImageExtension : string := kProxyImageExtension.

(** ** Vocabulary of the statements *)

(** The value of the last property named [k] in a buffer. *)
Fixpoint lastValue (k : string) (ps : list MltProperty) : option string :=
  match ps with
  | [] => None
  | p :: rest =>
      match lastValue k rest with
      | Some v => Some v
      | None => if decide (p.1 = k) then Some p.2 else None
      end
  end.

(** A token that makes [filterXML] flush the buffer (a start or end tag of
    an element other than [property]), with what is written for the token
    itself after the flush. *)
Definition flushOps (t : Token) : option (list WriteOp) :=
  match t with
  | StartElement ns element attrs _ =>
      if decide (element = "property") then None
      else Some (WStartElementNS ns element :: map WAttributeCopy attrs)
  | EndElement name =>
      if decide (name ≠ "property") then Some [WEndElement] else None
  | _ => None
  end.

(** The [(name, value)] pair a token contributes to the buffer. *)
Definition tokenProperty (t : Token) : option MltProperty :=
  match t with
  | StartElement _ element attrs text =>
      if decide (element = "property")
      then Some (attributeValue attrs "name", text) else None
  | _ => None
  end.

(** All property pairs of a document, in document order. *)
Definition documentProperties (ts : list Token) : list MltProperty :=
  omap tokenProperty ts.







(** Reading the writer's calls back: a property element written by
    [writeProperty] (left), or any other call (right). *)
Fixpoint parseWritten (ops : list WriteOp) : list (MltProperty + WriteOp) :=
  match ops with
  | [] => []
  | WStartElement q :: rest =>
      match rest with
      | WAttribute _ n :: WCharacters v :: WEndElement :: rest' =>
          inl (n, v) :: parseWritten rest'
      | _ => inr (WStartElement q) :: parseWritten rest
      end
  | op :: rest => inr op :: parseWritten rest
  end.

Definition leftOf {A B} (x : A + B) : option A :=
  match x with inl a => Some a | inr _ => None end.


(** The property pairs written, in order. *)
Definition writtenProperties (ops : list WriteOp) : list MltProperty :=
  omap leftOf (parseWritten ops).






(** One entry of [parseWritten] written out again. *)
Definition renderItem (i : MltProperty + WriteOp) : list WriteOp :=
  match i with
  | inl p => writeProperty p
  | inr op => [op]
  end.

(** An entry that [parseWritten] reads back as itself. *)
Definition plainItem (i : MltProperty + WriteOp) : Prop :=
  match i with
  | inr (WStartElement _) => False
  | _ => True
  end.



(** Between two worlds: the pending marker [fileName] was touched, then one
    job was submitted, and nothing else happened but the creation of
    directories before both. [ok] tells whether the marker could be opened
    for writing. *)
Definition markerThenJob (w w' : World) (fileName : string) (ok : bool)
    (job : Job) : Prop :=
  ∃ made ok',
    log w' = log w ++ made
               ++ [EOpenWrite fileName ok; EResize fileName 0 ok';
                   EClose fileName; ESubmit job]
    ∧ Forall (λ e, ∃ path b, e = EMkdir path b) made
    ∧ jobs w' = jobs w ++ [job]
    ∧ jobName job = fileName
    ∧ (ok = true → fs w' !! fileName = Some (File 0)).

(** Between the world [w] a builder starts in and the world [w'] it ends
    in, [w1] being the world [dir()] left: directories were made at most;
    then the pending marker [fileName] was touched (opened for writing,
    which succeeds exactly where [w1] allows it, resized to 0, closed),
    reaching the world [wm], in which no job is submitted yet; then the one
    job was submitted. Where the marker could be opened, it exists with
    length 0 in [wm]; where it could not and no file was there, none is
    there in [wm]. *)
Definition touchedThenSubmitted (w w1 w' : World) (fileName : string)
    (job : Job) : Prop :=
  ∃ made ok' wm,
    w' = JOBS_add wm job
    ∧ jobs wm = jobs w
    ∧ log wm = log w ++ made
                 ++ [EOpenWrite fileName (Qt.writable w1 fileName);
                     EResize fileName 0 ok'; EClose fileName]
    ∧ Forall (λ e, ∃ path b, e = EMkdir path b) made
    ∧ jobName job = fileName
    ∧ (Qt.writable w1 fileName = true → fs wm !! fileName = Some (File 0))
    ∧ (Qt.writable w1 fileName = false → fs w1 !! fileName = None →
       fs wm !! fileName = None).

(** The checks at the head of [generateIfNotExists], line 418. *)
Definition eligible (env : Env) (producer : Producer) : Prop :=
  proxyEnabled (settings env) = true
  ∧ is_valid producer = true
  ∧ get_int producer kDisableProxyProperty = 0
  ∧ get_int producer kIsProxyProperty = 0.


(** ** Example inputs *)







(** A time-remapped proxy clip whose [warp_resource] precedes
    [resource]. *)
Definition c2_document : list Token :=
  [StartElement "" "producer" [mkAttribute "" "id" "producer0"] "";
   StartElement "" "property" [mkAttribute "" "name" "isProxy"] "1";
   StartElement "" "property" [mkAttribute "" "name" "originalResource"] "/a/b/c.mov";
   StartElement "" "property" [mkAttribute "" "name" "mlt_service"] "timewarp";
   StartElement "" "property" [mkAttribute "" "name" "warp_speed"] "2";
   StartElement "" "property" [mkAttribute "" "name" "warp_resource"] "/cache/H.mp4";
   StartElement "" "property" [mkAttribute "" "name" "resource"] "2:/cache/H.mp4";
   EndElement "producer"].

(** No project folder, and a proxy folder [/nocache] that does not
    exist. *)
Definition c4_env : Env :=
  {| settings := {| proxyEnabled := true; proxyFolder := "/nocache";
                    proxyUseProjectFolder := true; proxyUseHardware := false;
                    encodeHardware := []; playerPreviewScale := 0 |};
     projectFolder := "";
     fullRange := λ _, false;
     getHash := λ _, "H";
     baseName := λ s, s;
     get_frame := λ p, p;
     strtod := λ _, S754_zero false;
     tr := λ s, s |}.

Definition c4_world : World :=
  {| fs := {[ "/" := Dir ]}; denied := ∅; jobs := []; log := [] |}.

Definition c4_producer : Producer :=
  {| is_valid := true;
     props := {[ "mlt_service" := "avformat"; "resource" := "/media/a.mov" ]} |}.

(** A project in [/proj] whose proxy [H.mp4] is ready in [/proj/proxies];
    the global proxy folder [/cache] holds no file for the clip. *)
Definition c8_env : Env :=
  {| settings := {| proxyEnabled := true; proxyFolder := "/cache";
                    proxyUseProjectFolder := true; proxyUseHardware := false;
                    encodeHardware := []; playerPreviewScale := 0 |};
     projectFolder := "/proj";
     fullRange := λ _, false;
     getHash := λ _, "H";
     baseName := λ s, s;
     get_frame := λ p, p;
     strtod := λ _, S754_zero false;
     tr := λ s, s |}.

Definition c8_world : World :=
  {| fs := {[ "/proj" := Dir; "/proj/proxies" := Dir;
              "/proj/proxies/H.mp4" := File 1000; "/cache" := Dir ]};
     denied := ∅; jobs := []; log := [] |}.

Definition c8_producer : Producer :=
  {| is_valid := true;
     props := {[ "mlt_service" := "avformat"; "resource" := "/media/a.mov" ]} |}.

(** A full-HD clip without any proxy file, under the default resolution. *)
Definition c10_env : Env :=
  {| settings := {| proxyEnabled := true; proxyFolder := "/cache";
                    proxyUseProjectFolder := true; proxyUseHardware := false;
                    encodeHardware := []; playerPreviewScale := 0 |};
     projectFolder := "/proj";
     fullRange := λ _, false;
     getHash := λ _, "H";
     baseName := λ s, s;
     get_frame := λ p, p;
     strtod := λ _, S754_zero false;
     tr := λ s, s |}.

Definition c10_world : World :=
  {| fs := {[ "/proj" := Dir; "/cache" := Dir ]};
     denied := ∅; jobs := []; log := [] |}.

Definition c10_producer : Producer :=
  {| is_valid := true;
     props := {[ "mlt_service" := "avformat"; "resource" := "/media/a.mov";
                 "meta.media.width" := "1920"; "meta.media.height" := "1080" ]} |}.

(** A preview scale of 95 lines, and a clip of 124 by 124. *)
Definition c10_half_env : Env :=
  {| settings := {| proxyEnabled := true; proxyFolder := "/cache";
                    proxyUseProjectFolder := true; proxyUseHardware := false;
                    encodeHardware := []; playerPreviewScale := 95 |};
     projectFolder := "/proj";
     fullRange := λ _, false;
     getHash := λ _, "H";
     baseName := λ s, s;
     get_frame := λ p, p;
     strtod := λ _, S754_zero false;
     tr := λ s, s |}.

Definition c10_half_producer : Producer :=
  {| is_valid := true;
     props := {[ "mlt_service" := "avformat"; "resource" := "/media/a.mov";
                 "meta.media.width" := "124"; "meta.media.height" := "124" ]} |}.

(** ** Vocabulary of the further properties *)

(** The names the second loop treats specially. *)
Definition ordinaryName (k : string) : Prop :=
  k ≠ "resource" ∧ k ≠ "warp_resource"
  ∧ k ≠ kIsProxyProperty ∧ k ≠ kOriginalResourceProperty.

#[global] Instance ordinaryName_dec (k : string) : Decision (ordinaryName k).
Proof. unfold ordinaryName. apply _. Defined.


(** The project-scoped cache folder, [<project folder>/proxies]. *)
Definition projectProxies (env : Env) : string :=
  Qt.filePath (Qt.QDir (projectFolder env)) "proxies".

(** The scale stage and the range flags of the filter expression. *)
Definition scaleStage (env : Env) (fullRange : bool) : string :=
  "scale=width=-2:height=" +:+ QStr.number (resolution env)
  +:+ (if fullRange then ":in_range=full:out_range=full"
       else ":in_range=mpeg:out_range=mpeg")
  +:+ hwFilters env.

(** ** The scan of a whole project, lines 487-526 *)

(** Clips are shared objects: an [Mlt::Producer] value is a handle on one,
    and a copy of the handle is a handle on the same clip. The store holds
    the clips by handle. *)

(** One call of [on_start_producer] made by [Mlt::Parser::start]: the
    handle of the producer visited and the handle of its [parent()]. *)
Record Visit := mkVisit {
  visitedClip : nat;
  visitedParent : nat
}.

(** [get_int(name)] through a handle; 0 for a handle on nothing. *)
Definition handle_get_int (store : gmap nat Producer) (h : nat) (name : string)
    : Z :=
  match store !! h with
  | Some p => get_int p name
  | None => 0
  end.

(** [FindNonProxyProducersParser::on_start_producer]: the list
    [m_producers] after the call. *)
Definition on_start_producer (store : gmap nat Producer)
    (m_producers : list nat) (v : Visit) : list nat :=
  if negb (bool_decide (handle_get_int store (visitedParent v) kIsProxyProperty ≠ 0))
  then m_producers ++ [visitedClip v]
  else m_producers.

(** [parser.start(producer); parser.producers()] for a traversal that makes
    the given visits. *)
Definition parserProducers (store : gmap nat Producer) (visits : list Visit)
    : list nat :=
  fold_left (on_start_producer store) visits [].

(** Body of the loop of [generateIfNotExistsAll], lines 523-524. *)
Definition generateIfNotExistsAll_step (env : Env)
    (st : World * gmap nat Producer) (h : nat) : World * gmap nat Producer :=
  match st.2 !! h with
  | Some clip =>
      let '(_, clip, w) := generateIfNotExists env st.1 clip false in
      (w, <[h := set_int clip kIsProxyProperty 1]> st.2)
  | None => st
  end.

(** [void ProxyManager::generateIfNotExistsAll(Mlt::Producer& producer)] *)
Definition generateIfNotExistsAll (env : Env) (w : World)
    (store : gmap nat Producer) (visits : list Visit)
    : World * gmap nat Producer :=
  fold_left (generateIfNotExistsAll_step env) (parserProducers store visits)
    (w, store).

(** The clip behind a handle carries the proxy marker. *)
Definition taggedIn (store : gmap nat Producer) (h : nat) : Prop :=
  ∃ p, store !! h = Some p ∧ get_int p kIsProxyProperty = 1.

(** A job that only promotes its pending file. *)
Definition finalizes (job : Job) : Prop :=
  postJobAction job = ProxyFinalizePostJobAction (jobName job).

(** ** Example inputs of the further properties *)

(** A time-remapped proxy clip at double speed. *)
Definition x_timewarp_scope : list MltProperty :=
  [("isProxy", "1"); ("originalResource", "/a/b/c.mov");
   ("mlt_service", "timewarp"); ("warp_speed", "2");
   ("resource", "2:/cache/H.mp4"); ("warp_resource", "/cache/H.mp4")].

(** A time-remapped proxy scope that lost its stash, up to its
    [resource]. *)
Definition x_unstashed : list MltProperty :=
  [("isProxy", "1"); ("mlt_service", "timewarp"); ("warp_speed", "2")].

(** A scope whose [warp_resource] stands on both sides of [resource]. *)
Definition x_warp_before : list MltProperty :=
  [("isProxy", "1"); ("originalResource", "/a/b/c.mov");
   ("mlt_service", "timewarp"); ("warp_resource", "/cache/H.mp4")].

Definition x_warp_middle : list MltProperty :=
  [("warp_speed", "1"); ("warp_resource", "/cache/H.mp4")].

(** Two producers, the first one a proxy. *)
Definition x_two_producers : list Token :=
  [StartElement "" "mlt" [] "";
   StartElement "" "producer" [mkAttribute "" "id" "producer0"] "";
   StartElement "" "property" [mkAttribute "" "name" "isProxy"] "1";
   StartElement "" "property" [mkAttribute "" "name" "originalResource"] "/a/b/c.mov";
   StartElement "" "property" [mkAttribute "" "name" "resource"] "/cache/H.mp4"].

Definition x_second_producer : list Token :=
  [StartElement "" "producer" [mkAttribute "" "id" "producer1"] "";
   StartElement "" "property" [mkAttribute "" "name" "resource"] "/a/d.mov";
   EndElement "producer";
   EndElement "mlt"].

(** A document whose root element is a property. *)
Definition x_property_root : list Token :=
  [StartDocument "1.0" false;
   StartElement "" "property" [mkAttribute "" "name" "resource"] "/a/b/c.mov";
   EndDocument].

(** Settings with the default resolution and software encoding. *)
Definition x_settings (enabled : bool) : Settings :=
  {| proxyEnabled := enabled; proxyFolder := "/cache";
     proxyUseProjectFolder := true; proxyUseHardware := false;
     encodeHardware := []; playerPreviewScale := 0 |}.

Definition x_env (enabled : bool) : Env :=
  {| settings := x_settings enabled;
     projectFolder := "/proj";
     fullRange := λ _, false;
     getHash := λ _, "H";
     baseName := λ s, s;
     get_frame := λ p, p;
     strtod := λ _, S754_zero false;
     tr := λ s, s |}.

(** A full-HD avformat clip. *)
Definition x_clip : Producer :=
  {| is_valid := true;
     props := {[ "mlt_service" := "avformat"; "resource" := "/media/a.mov";
                 "meta.media.width" := "1920"; "meta.media.height" := "1080" ]} |}.

(** A project folder without proxies, one with a pending marker in the
    global folder, and one with a ready proxy there. *)
Definition x_world_empty : World :=
  {| fs := {[ "/proj" := Dir; "/cache" := Dir ]};
     denied := ∅; jobs := []; log := [] |}.

Definition x_world_pending : World :=
  {| fs := {[ "/proj" := Dir; "/cache" := Dir; "/cache/H.pending.mp4" := File 0 ]};
     denied := ∅; jobs := []; log := [] |}.

Definition x_world_ready : World :=
  {| fs := {[ "/proj" := Dir; "/cache" := Dir; "/cache/H.mp4" := File 1000 ]};
     denied := ∅; jobs := []; log := [] |}.

(** A project folder in which nothing can be made. *)
Definition x_world_locked : World :=
  {| fs := {[ "/proj" := Dir; "/cache" := Dir ]};
     denied := {[ "/proj/proxies" ]}; jobs := []; log := [] |}.

(** A playlist that uses one clip twice. *)
Definition x_store : gmap nat Producer := {[ 0%nat := x_clip ]}.

Definition x_visits : list Visit :=
  [{| visitedClip := 0%nat; visitedParent := 0%nat |}].

(** Closed facts settled by evaluation. *)
Ltac by_evaluation := apply (bool_decide_unpack _); vm_compute; exact I.

(* ===================================================================== *)
(** * Theorems *)
(* ===================================================================== *)

(** ** Place markers *)

Lemma append_empty (s : string) : s +:+ "" = s.
Proof. induction s as [|c s IH]; [done|]. change (String c (s +:+ "") = String c s). by rewrite IH. Qed.

Lemma append_assoc (a b c : string) : (a +:+ b) +:+ c = a +:+ (b +:+ c).
Proof.
  induction a as [|x a IH]; [done|].
  change (String x ((a +:+ b) +:+ c) = String x (a +:+ (b +:+ c))). by rewrite IH.
Qed.

(** The first argument takes the place of [%1]. *)
Lemma arg_speed (speed : string) : QStr.arg "%1:%2" speed = speed +:+ ":%2".
Proof. reflexivity. Qed.

(** Text without [%] is read as plain text. *)
Lemma pieces_plain (s t : string) :
  QStr.hasChar "%" s = false →
  ∃ texts,
    QStr.pieces QStr.Plain (s +:+ t) = texts ++ QStr.pieces QStr.Plain t
    ∧ omap QStr.markerNumber texts = []
    ∧ ∀ m a, QStr.join (map (QStr.fill m a) texts) = s.
Proof.
  induction s as [|c s IH]; intros H.
  - exists []. done.
  - simpl in H. apply orb_false_iff in H as [Hc Hs].
    destruct (IH Hs) as (texts & E1 & E2 & E3).
    exists (QStr.Text (String c "") :: texts).
    change (String c s +:+ t) with (String c (s +:+ t)).
    cbn [QStr.pieces]. rewrite Hc, E1. split; [done|]. split; [done|].
    intros m a. cbn [map QStr.join fold_right QStr.fill].
    change (String c (fold_right String.append "" (map (QStr.fill m a) texts))
            = String c s).
    f_equal. apply E3.
Qed.

(** The composite [QString("%1:%2").arg(speed).arg(path)] is speed, colon,
    path when the speed holds no [%]. *)
Lemma arg_composite (speed path : string) :
  QStr.hasChar "%" speed = false →
  QStr.arg (QStr.arg "%1:%2" speed) path = speed +:+ ":" +:+ path.
Proof.
  intros H. rewrite arg_speed.
  destruct (pieces_plain speed ":%2" H) as (texts & E1 & E2 & E3).
  assert (QStr.pieces QStr.Plain ":%2" = [QStr.Text ":"; QStr.Marker 2 "%2"]) as Hp
    by (vm_compute; reflexivity).
  unfold QStr.arg, QStr.lowestMarker. rewrite E1, Hp, omap_app, E2.
  cbn [app omap list_omap QStr.markerNumber fold_left].
  rewrite map_app. unfold QStr.join. rewrite fold_right_app.
  cbn [map fold_right QStr.fill Nat.eqb].
  rewrite append_empty.
  specialize (E3 2%nat path). unfold QStr.join in E3.
  assert (∀ l tail, fold_right String.append tail l
                    = fold_right String.append "" l +:+ tail) as Hfold.
  { induction l as [|x l IHl]; intros tail; simpl; [done|].
    by rewrite IHl, append_assoc. }
  by rewrite Hfold, E3.
Qed.

(** The label of a job when no translation is installed. *)
Lemma arg_label (name : string) :
  QStr.arg "Make proxy for %1" name = "Make proxy for " +:+ name.
Proof.
  change (QStr.arg "Make proxy for %1" name)
    with ("Make proxy for " +:+ (name +:+ "")).
  by rewrite append_empty.
Qed.

(** ** The first loop of [processProperties] *)

Lemma scan_isProxy (ps : list MltProperty) (a : Scan) :
  isProxy (fold_left scanStep ps a)
  = isProxy a || bool_decide (kIsProxyProperty ∈ ps.*1).
Proof.
  revert a. induction ps as [|p ps IH]; intros a; csimpl.
  - by rewrite orb_false_r.
  - rewrite IH. unfold scanStep.
    destruct (decide (p.1 = kIsProxyProperty)) as [E|N].
    + cbn [isProxy orb].
      rewrite (bool_decide_eq_true_2 (kIsProxyProperty ∈ p.1 :: ps.*1));
        [by rewrite orb_true_r | rewrite E; apply elem_of_cons; by left].
    + assert (bool_decide (kIsProxyProperty ∈ p.1 :: ps.*1)
              = bool_decide (kIsProxyProperty ∈ ps.*1)) as ->.
      { apply bool_decide_ext. rewrite elem_of_cons. intuition congruence. }
      repeat case_decide; repeat case_match; reflexivity.
Qed.

Lemma scan_service (ps : list MltProperty) (a : Scan) :
  service (fold_left scanStep ps a)
  = default (service a) (lastValue "mlt_service" ps).
Proof.
  revert a. induction ps as [|p ps IH]; intros a; simpl; [done|].
  rewrite IH. destruct (lastValue "mlt_service" ps); simpl; [done|].
  unfold scanStep.
  destruct (decide (p.1 = "mlt_service")) as [E|N]; simpl.
  - rewrite E. simpl. by destruct (QStr.isEmpty _).
  - repeat case_decide; try done; by destruct (QStr.isEmpty _).
Qed.

Lemma scan_speed (ps : list MltProperty) (a : Scan) :
  speed (fold_left scanStep ps a)
  = default (speed a) (lastValue "warp_speed" ps).
Proof.
  revert a. induction ps as [|p ps IH]; intros a; simpl; [done|].
  rewrite IH. destruct (lastValue "warp_speed" ps); simpl; [done|].
  unfold scanStep.
  destruct (decide (p.1 = "warp_speed")) as [E|N]; simpl.
  - rewrite E. simpl. by destruct (QStr.isEmpty _).
  - repeat case_decide; try done; by destruct (QStr.isEmpty _).
Qed.

Lemma lastValue_None (k : string) (ps : list MltProperty) :
  lastValue k ps = None ↔ k ∉ ps.*1.
Proof.
  induction ps as [|p ps IH]; simpl.
  - split; [intros _; apply not_elem_of_nil | done].
  - rewrite not_elem_of_cons, <- IH.
    destruct (lastValue k ps); [intuition congruence|].
    case_decide; intuition congruence.
Qed.

(** Once a non-empty path is held, only a later stash replaces it. *)
Lemma scan_newResource_kept (ps : list MltProperty) (a : Scan) :
  kOriginalResourceProperty ∉ ps.*1 → newResource a ≠ "" →
  newResource (fold_left scanStep ps a) = newResource a.
Proof.
  revert a. induction ps as [|p ps IH]; intros a Hno Hne; simpl; [done|].
  apply not_elem_of_cons in Hno as [Hp Hps].
  assert (newResource (scanStep a p) = newResource a) as Hstep.
  { unfold scanStep. destruct (newResource a) eqn:En; [done|]. simpl.
    repeat case_decide; simpl; try done; congruence. }
  rewrite IH; [done | done | by rewrite Hstep].
Qed.

(** The stash wins: the path held after the first loop is the last
    non-empty [originalResource]. *)
Lemma scan_newResource_stash (ps : list MltProperty) (a : Scan) (orig : string) :
  lastValue kOriginalResourceProperty ps = Some orig → orig ≠ "" →
  newResource (fold_left scanStep ps a) = orig.
Proof.
  revert a. induction ps as [|p ps IH]; intros a Hl Hne; simpl in *; [done|].
  destruct (lastValue kOriginalResourceProperty ps) as [v|] eqn:El.
  - apply IH; done.
  - case_decide as Hk; [|done]. injection Hl as Hl.
    rewrite scan_newResource_kept.
    + unfold scanStep. rewrite Hk. simpl. done.
    + by apply lastValue_None.
    + unfold scanStep. rewrite Hk. simpl. by rewrite Hl.
Qed.

(** ** The second loop of [processProperties] *)

Lemma filterProperties_names (root svc spd nr : string) (ps : list MltProperty) (k : string) :
  k ∈ (filterProperties root svc spd nr ps).*1 →
  k ∈ ps.*1 ∧ k ≠ kIsProxyProperty ∧ k ≠ kOriginalResourceProperty.
Proof.
  revert nr. induction ps as [|p ps IH]; intros nr; csimpl.
  - intros Hin. by apply elem_of_nil in Hin.
  - destruct (decide (p.1 = "resource")) as [E1|N1].
    { destruct (decide (svc = "timewarp")); csimpl; rewrite !elem_of_cons;
        (intros [->|Hin]; [rewrite E1; split; [by left|done]
                          | apply IH in Hin; destruct Hin as (?&?&?); repeat split; auto]). }
    destruct (decide (p.1 = "warp_resource")) as [E2|N2].
    { csimpl; rewrite !elem_of_cons.
      intros [->|Hin]; [rewrite E2; split; [by left|done]
                       | apply IH in Hin; destruct Hin as (?&?&?); repeat split; auto]. }
    destruct (decide (p.1 ≠ kIsProxyProperty ∧ p.1 ≠ kOriginalResourceProperty))
      as [[A B]|N3].
    + csimpl; rewrite !elem_of_cons.
      intros [->|Hin]; [repeat split; auto | apply IH in Hin; destruct Hin as (?&?&?); repeat split; auto].
    + intros Hin. apply IH in Hin. rewrite elem_of_cons.
      destruct Hin as (?&?&?); repeat split; auto.
Qed.

Lemma filterProperties_app (root svc spd nr : string) (before after : list MltProperty) :
  "resource" ∉ before.*1 →
  filterProperties root svc spd nr (before ++ after)
  = filterProperties root svc spd nr before
      ++ filterProperties root svc spd nr after.
Proof.
  induction before as [|p ps IH]; simpl; [done|].
  intros [Hp Hps]%not_elem_of_cons.
  destruct (decide (p.1 = "resource")); [done|].
  repeat case_decide; simpl; by rewrite ?IH.
Qed.

Lemma filterProperties_no_resource (root svc spd nr : string) (ps : list MltProperty) :
  "resource" ∉ ps.*1 → "resource" ∉ (filterProperties root svc spd nr ps).*1.
Proof.
  intros H Hin. apply filterProperties_names in Hin. tauto.
Qed.

(** ** The loop of [filterXML] *)

Lemma filterFrom_app (root : string) (st : Rewriter) (ts1 ts2 : list Token) :
  filterFrom root st (ts1 ++ ts2) = filterFrom root (filterFrom root st ts1) ts2.
Proof. apply fold_left_app. Qed.

(** At a flush token the buffer is handed to [processProperties], then the
    token itself is written; the buffer is empty afterwards. *)
Lemma filterStep_flush (root : string) (st : Rewriter) (t : Token) (ops : list WriteOp) :
  flushOps t = Some ops →
  newXml (filterStep root st t)
    = newXml st ++ processProperties root (properties st) ++ ops
  ∧ properties (filterStep root st t) = [].
Proof.
  destruct t; simpl; try done; case_decide; try done;
    intros [= <-]; done.
Qed.

(** ** Relative paths *)

Lemma prefix_append (p rest : string) : String.prefix p (p +:+ rest) = true.
Proof.
  induction p as [|c p IH]; simpl; [by destruct rest|].
  destruct (ascii_dec c c); [done | congruence].
Qed.

Lemma mid_append (p rest : string) : QStr.mid (String.length p) (p +:+ rest) = rest.
Proof. induction p as [|c p IH]; simpl; [by destruct rest | done]. Qed.

Lemma relativize_under_root (root rest : string) :
  root ≠ "" → QStr.endsWith root "/" = true →
  relativize root (root +:+ rest) = rest.
Proof.
  intros Hne Hend. unfold relativize, QStr.startsWith, QStr.size.
  rewrite prefix_append, Hend, mid_append. by destruct root.
Qed.


(** ** Proxy scopes *)

(** What [processProperties] emits for a scope that carries the marker. *)
Lemma rewriteProperties_proxy (root : string) (scope : list MltProperty) :
  kIsProxyProperty ∈ scope.*1 →
  rewriteProperties root scope
  = filterProperties root
      (default "" (lastValue "mlt_service" scope))
      (default "1" (lastValue "warp_speed" scope))
      (newResource (scanProperties scope)) scope.
Proof.
  intros Hm. unfold rewriteProperties, scanProperties.
  rewrite scan_isProxy, scan_service, scan_speed.
  by rewrite (bool_decide_eq_true_2 _ Hm).
Qed.

(** What it emits for a scope without the marker: the buffer itself. *)
Lemma rewriteProperties_plain (root : string) (scope : list MltProperty) :
  kIsProxyProperty ∉ scope.*1 → rewriteProperties root scope = scope.
Proof.
  intros Hm. unfold rewriteProperties, scanProperties.
  rewrite scan_isProxy. by rewrite (bool_decide_eq_false_2 _ Hm).
Qed.








(** ** Documents without proxy clips *)

Lemma parseWritten_render (items : list (MltProperty + WriteOp)) :
  Forall plainItem items → parseWritten (flat_map renderItem items) = items.
Proof.
  induction 1 as [|i items Hi _ IH]; [done|].
  destruct i as [[n v]|op]; simpl; [by rewrite IH|].
  destruct op; simpl in *; by rewrite ?IH.
Qed.



Lemma leftOf_inr {A B} (l : list B) : omap leftOf (map (@inr A B) l) = [].
Proof. induction l as [|a l IH]; csimpl; done. Qed.




Lemma render_inr (ops : list WriteOp) : flat_map renderItem (map inr ops) = ops.
Proof. induction ops as [|o ops IH]; simpl; [done | by rewrite IH]. Qed.





Lemma documentProperties_cons (t : Token) (ts : list Token) :
  documentProperties (t :: ts) = documentProperties [t] ++ documentProperties ts.
Proof. unfold documentProperties. by rewrite <- omap_app. Qed.











(** ** Time-remapped proxy clips *)

(** When [resource] comes first, [warp_resource] gets the relative path. *)
Lemma timewarp_resource_first (root svc spd nr v w : string)
    (middle after : list MltProperty) :
  "resource" ∉ middle.*1 →
  ∃ middle' after',
    filterProperties root svc spd nr
      (("resource", v) :: middle ++ ("warp_resource", w) :: after)
    = ("resource", if decide (svc = "timewarp")
                   then QStr.arg (QStr.arg "%1:%2" spd) (relativize root nr)
                   else relativize root nr)
        :: middle' ++ ("warp_resource", relativize root nr) :: after'.
Proof.
  intros Hm. simpl. rewrite filterProperties_app by done. simpl.
  destruct (decide (svc = "timewarp")); eexists _, _; reflexivity.
Qed.


(** C2 (the code at the failing input). With root [/a/], [resource]
    becomes [2:b/c.mov], but [warp_resource], coming before [resource] in
    the buffer, gets the original path [/a/b/c.mov] as it stands, not the
    relative path [b/c.mov]. *)
Theorem C2_warp_resource_before_resource :
  writtenProperties (newXml (filterTokens "/a/" c2_document))
  = [("mlt_service", "timewarp"); ("warp_speed", "2");
     ("warp_resource", "/a/b/c.mov"); ("resource", "2:b/c.mov")]
  ∧ relativize "/a/" "/a/b/c.mov" = "b/c.mov".
Proof. split; reflexivity. Qed.

(** ** Outcome of [filterXML] *)

(** C9. [filterXML] returns true exactly when the input file opened, the
    temporary file opened and the document parsed without error; then the
    caller's [fileName] is the temporary file, which is kept with what the
    loop wrote. In every other case it returns false, the caller's
    [fileName] is unchanged and no temporary file is left. *)
Theorem C9_filterXML_outcome (disk : Storage) (fileName root : string) :
  let o := filterXML disk fileName root in
  (returned o = true ↔
     ∃ xml tempName, openInput disk fileName = Some xml
                     ∧ openTemp disk fileName = Some tempName
                     ∧ hasError xml = false)
  ∧ (returned o = true →
       ∃ xml tempName, openInput disk fileName = Some xml
                       ∧ openTemp disk fileName = Some tempName
                       ∧ fileNameAfter o = tempName
                       ∧ retained o = Some (tempName, newXml (filterTokens root (tokens xml))))
  ∧ (returned o = false → fileNameAfter o = fileName ∧ retained o = None).
Proof.
  unfold filterXML.
  destruct (openInput disk fileName) as [xml|]; simpl.
  2:{ split; [|split]; try done. split; [done | intros (? & ? & ? & _); done]. }
  destruct (openTemp disk fileName) as [tempName|]; simpl.
  2:{ split; [|split]; try done. split; [done | intros (? & ? & _ & ? & _); done]. }
  destruct (hasError xml) eqn:Herr; simpl.
  - split; [|split]; try done.
    split; [done | intros (x & t & [= <-] & _ & He); congruence].
  - split; [|split]; try done.
    + split; [intros _; by exists xml, tempName | done].
    + intros _. by exists xml, tempName.
Qed.

(** ** Order of effects in the descriptor builders *)

Lemma dir_effects (env : Env) (w : World) :
  ∃ made,
    log (dir env w).2 = log w ++ made
    ∧ Forall (λ e, ∃ path b, e = EMkdir path b) made
    ∧ jobs (dir env w).2 = jobs w.
Proof.
  unfold dir.
  destruct (negb (QStr.isEmpty (projectFolder env)) && _ && _); simpl.
  2:{ exists []. by rewrite app_nil_r. }
  destruct (Qt.cd w (Qt.QDir (projectFolder env)) "proxies") as [[] d']; simpl.
  { exists []. by rewrite app_nil_r. }
  unfold Qt.mkdir.
  destruct (bool_decide _ && bool_decide _); simpl;
    eexists [_]; repeat split; repeat constructor; eauto.
Qed.

Lemma touch_effects (w : World) (fileName : string) :
  ∃ ok',
    log (touch w fileName)
    = log w ++ [EOpenWrite fileName (Qt.writable w fileName);
                EResize fileName 0 ok'; EClose fileName]
    ∧ jobs (touch w fileName) = jobs w
    ∧ (Qt.writable w fileName = true →
       fs (touch w fileName) !! fileName = Some (File 0))
    ∧ (Qt.writable w fileName = false → fs w !! fileName = None →
       fs (touch w fileName) !! fileName = None).
Proof.
  unfold touch, Qt.openWrite.
  destruct (Qt.writable w fileName) eqn:Hw; simpl.
  - unfold Qt.resize, Qt.close. simpl.
    unfold Qt.writable in Hw.
    apply andb_true_iff in Hw as [Hw _]. apply andb_true_iff in Hw as [Hd _].
    rewrite Hd, lookup_insert_eq. simpl.
    exists true. rewrite <- !app_assoc. repeat split; try done.
    intros _. by rewrite lookup_insert_eq.
  - unfold Qt.resize, Qt.close. simpl.
    destruct (bool_decide (fileName ∉ denied w) && _) eqn:Hr; simpl;
      eexists; rewrite <- !app_assoc; (split; [reflexivity|]);
      (split; [done|]); (split; [done|]); intros _ Hn.
    + rewrite Hn in Hr. by rewrite andb_false_r in Hr.
    + done.
Qed.

Lemma generateVideoProxy_effects (env : Env) (w : World) (producer : Producer)
    (fullRange : bool) (scanMode : ScanMode) (aspectRatio : QPoint) (replace : bool) :
  let fileName :=
    Qt.filePath (dir env w).1 (getHash env producer +:+ kProxyPendingVideoExtension) in
  ∃ ok,
    markerThenJob w
      (generateVideoProxy env w producer fullRange scanMode aspectRatio replace)
      fileName ok
      (videoJob env producer fullRange scanMode aspectRatio replace fileName).
Proof.
  intros fileName. unfold generateVideoProxy.
  destruct (dir_effects env w) as (made & L1 & F1 & J1).
  subst fileName. destruct (dir env w) as [d w1]. simpl in *.
  destruct (touch_effects w1 (Qt.filePath d (getHash env producer +:+ kProxyPendingVideoExtension)))
    as (ok' & L2 & J2 & M2 & _).
  eexists _, made, ok'. simpl. rewrite L2, L1, J2, J1, <- !app_assoc.
  repeat split; done.
Qed.

Lemma generateImageProxy_effects (env : Env) (w : World) (producer : Producer)
    (replace : bool) :
  let fileName :=
    Qt.filePath (dir env w).1 (getHash env producer +:+ kProxyPendingImageExtension) in
  ∃ ok,
    markerThenJob w (generateImageProxy env w producer replace)
      fileName ok (imageJob env producer replace fileName).
Proof.
  intros fileName. unfold generateImageProxy.
  destruct (dir_effects env w) as (made & L1 & F1 & J1).
  subst fileName. destruct (dir env w) as [d w1]. simpl in *.
  destruct (touch_effects w1 (Qt.filePath d (getHash env producer +:+ kProxyPendingImageExtension)))
    as (ok' & L2 & J2 & M2 & _).
  eexists _, made, ok'. simpl. rewrite L2, L1, J2, J1, <- !app_assoc.
  repeat split; done.
Qed.

(** What a builder does once [dir()] has answered. *)
Lemma touch_then_submit (env : Env) (w : World) (fileName : string) (job : Job) :
  jobName job = fileName →
  touchedThenSubmitted w (dir env w).2
    (JOBS_add (touch (dir env w).2 fileName) job) fileName job.
Proof.
  intros Hname.
  destruct (dir_effects env w) as (made & L1 & F1 & J1).
  destruct (touch_effects (dir env w).2 fileName) as (ok' & L2 & J2 & M2 & N2).
  exists made, ok', (touch (dir env w).2 fileName).
  rewrite L2, L1, J2, J1, <- !app_assoc. repeat split; done.
Qed.

(** C4 (amended). In every run of [generateVideoProxy] and of
    [generateImageProxy] the effects are, in this order: possibly the
    creation of the proxy directory; then the touch of the pending file
    (open for writing, resize to 0, close); then the submission of the one
    job, whose output is that pending file. Nothing is submitted before
    the touch. Whenever the pending path can be opened for writing (it is
    not barred, is not a directory, and the directory it lies in exists),
    the marker exists with length 0 in the world the job is submitted in.
    The result of the open is not looked at: when the path cannot be
    opened the job is submitted all the same, and no marker is made. *)
Theorem C4_marker_before_submission (env : Env) (w : World) (producer : Producer)
    (fullRange : bool) (scanMode : ScanMode) (aspectRatio : QPoint) (replace : bool) :
  (∃ job,
     touchedThenSubmitted w (dir env w).2
       (generateVideoProxy env w producer fullRange scanMode aspectRatio replace)
       (Qt.filePath (dir env w).1 (getHash env producer +:+ ".pending.mp4")) job)
  ∧ (∃ job,
       touchedThenSubmitted w (dir env w).2
         (generateImageProxy env w producer replace)
         (Qt.filePath (dir env w).1 (getHash env producer +:+ ".pending.jpg")) job).
Proof.
  split.
  - eexists.
    replace (generateVideoProxy env w producer fullRange scanMode aspectRatio replace)
      with (JOBS_add
              (touch (dir env w).2
                 (Qt.filePath (dir env w).1 (getHash env producer +:+ ".pending.mp4")))
              (videoJob env producer fullRange scanMode aspectRatio replace
                 (Qt.filePath (dir env w).1 (getHash env producer +:+ ".pending.mp4"))))
      by (unfold generateVideoProxy; by destruct (dir env w)).
    by apply touch_then_submit.
  - eexists.
    replace (generateImageProxy env w producer replace)
      with (JOBS_add
              (touch (dir env w).2
                 (Qt.filePath (dir env w).1 (getHash env producer +:+ ".pending.jpg")))
              (imageJob env producer replace
                 (Qt.filePath (dir env w).1 (getHash env producer +:+ ".pending.jpg"))))
      by (unfold generateImageProxy; by destruct (dir env w)).
    by apply touch_then_submit.
Qed.

(** The full-HD clip in the project [/proj]: the marker lies in
    [/proj/proxies], made on the way, when the job is submitted. *)
Lemma C4_witness :
  Qt.writable (dir c10_env c10_world).2 "/proj/proxies/H.pending.mp4" = true
  ∧ ∃ job wm,
      generateVideoProxy c10_env c10_world c10_producer false Automatic
        {| qx := 0; qy := 0 |} false = JOBS_add wm job
      ∧ jobs wm = []
      ∧ fs wm !! "/proj/proxies/H.pending.mp4" = Some (File 0).
Proof.
  assert (Qt.writable (dir c10_env c10_world).2 "/proj/proxies/H.pending.mp4" = true)
    as Hw by (vm_compute; reflexivity).
  split; [exact Hw|].
  destruct (proj1 (C4_marker_before_submission c10_env c10_world c10_producer
                     false Automatic {| qx := 0; qy := 0 |} false))
    as (job & made & ok' & wm & E & J & _ & _ & _ & M & _).
  exists job, wm. split; [exact E | split; [exact J | exact (M Hw)]].
Defined.

(** C4 as stated fails: with a proxy folder that does not exist the
    pending file cannot be opened; no marker is made, and the job is
    submitted all the same. *)
Lemma C4_counterexample :
  let w' := generateVideoProxy c4_env c4_world c4_producer false Automatic
              {| qx := 0; qy := 0 |} false in
  (dir c4_env c4_world).1 = "/nocache"
  ∧ fs c4_world !! "/nocache" = None
  ∧ fs w' = fs c4_world
  ∧ fs w' !! "/nocache/H.pending.mp4" = None
  ∧ map jobName (jobs w') = ["/nocache/H.pending.mp4"]
  ∧ ∃ job,
      log w' = [EOpenWrite "/nocache/H.pending.mp4" false;
                EResize "/nocache/H.pending.mp4" 0 false;
                EClose "/nocache/H.pending.mp4"; ESubmit job].
Proof.
  repeat split; try (vm_compute; reflexivity).
  eexists. vm_compute. reflexivity.
Qed.

(** ** File-name suffixes *)

(** C5 (the code as it is). The four constants and three of the accessors
    are as the claim says, but the accessor for the pending image extension
    returns the ready suffix [.jpg], not [.pending.jpg]. *)
Theorem C5_pending_image_accessor :
  kProxyVideoExtension = ".mp4"
  ∧ kProxyPendingVideoExtension = ".pending.mp4"
  ∧ kProxyImageExtension = ".jpg"
  ∧ kProxyPendingImageExtension = ".pending.jpg"
  ∧ videoFilenameExtension = ".mp4"
  ∧ pendingVideoExtension = ".pending.mp4"
  ∧ imageFilenameExtension = ".jpg"
  ∧ pendingImageExtension = ".jpg"
  ∧ pendingImageExtension ≠ ".pending.jpg".
Proof. repeat split; (reflexivity || discriminate). Qed.

(** ** The video descriptor *)

Lemma generateVideoProxy_job (env : Env) (w : World) (producer : Producer)
    (fullRange : bool) (scanMode : ScanMode) (aspectRatio : QPoint) (replace : bool) :
  ∃ fileName,
    jobs (generateVideoProxy env w producer fullRange scanMode aspectRatio replace)
    = jobs w ++ [videoJob env producer fullRange scanMode aspectRatio replace fileName].
Proof.
  destruct (generateVideoProxy_effects env w producer fullRange scanMode aspectRatio replace)
    as (ok & made & ok' & _ & _ & J & _). eauto.
Qed.

(** The argument list, cut at the colour arguments. *)
Lemma videoArgs_colorspace (env : Env) (producer : Producer) (fullRange : bool)
    (scanMode : ScanMode) (aspectRatio : QPoint) (resource fileName : string) :
  ∃ rest,
    videoArgs env producer fullRange scanMode aspectRatio resource fileName
    = videoArgsFilter env producer fullRange scanMode resource
        ++ colorspaceArgs (get_int producer "meta.media.colorspace")
                          (get_int producer "meta.media.height")
        ++ rest.
Proof.
  unfold videoArgs.
  destruct (negb (QPoint_isNull aspectRatio));
    destruct (negb (bool_decide _));
    eexists; rewrite <- !app_assoc; reflexivity.
Qed.

(** C6. The job built by [generateVideoProxy] carries, right after the
    filter and range arguments, the three colour arguments chosen by
    [meta.media.colorspace]: 601 with height 576 gives
    bt470bg/smpte170m/bt470bg, 601 otherwise smpte170m three times, 170
    smpte170m, 240 smpte240m, 470 bt470bg, and any other code, among them
    the 0 read for a missing property, bt709 three times. *)
Theorem C6_colorspace_triplet (env : Env) (w : World) (producer : Producer)
    (fullRange : bool) (scanMode : ScanMode) (aspectRatio : QPoint) (replace : bool) :
  let code := get_int producer "meta.media.colorspace" in
  let height := get_int producer "meta.media.height" in
  ∃ job primaries trc matrix rest,
    jobs (generateVideoProxy env w producer fullRange scanMode aspectRatio replace)
      = jobs w ++ [job]
    ∧ jobArgs job
      = videoArgsFilter env producer fullRange scanMode (resource producer)
          ++ ["-color_primaries"; primaries; "-color_trc"; trc; "-colorspace"; matrix]
          ++ rest
    ∧ (code = 601 → height = 576 →
         (primaries, trc, matrix) = ("bt470bg", "smpte170m", "bt470bg"))
    ∧ (code = 601 → height ≠ 576 →
         (primaries, trc, matrix) = ("smpte170m", "smpte170m", "smpte170m"))
    ∧ (code = 170 → (primaries, trc, matrix) = ("smpte170m", "smpte170m", "smpte170m"))
    ∧ (code = 240 → (primaries, trc, matrix) = ("smpte240m", "smpte240m", "smpte240m"))
    ∧ (code = 470 → (primaries, trc, matrix) = ("bt470bg", "bt470bg", "bt470bg"))
    ∧ (code ≠ 601 → code ≠ 170 → code ≠ 240 → code ≠ 470 →
         (primaries, trc, matrix) = ("bt709", "bt709", "bt709"))
    ∧ (get producer "meta.media.colorspace" = None →
         code = 0 ∧ (primaries, trc, matrix) = ("bt709", "bt709", "bt709")).
Proof.
  intros code height.
  destruct (generateVideoProxy_job env w producer fullRange scanMode aspectRatio replace)
    as [fileName J].
  destruct (videoArgs_colorspace env producer fullRange scanMode aspectRatio
              (resource producer) fileName) as [rest A].
  assert (get producer "meta.media.colorspace" = None → code = 0) as Hmissing.
  { intros Hn. subst code. unfold get_int. by rewrite Hn. }
  fold code height in A. unfold colorspaceArgs in A.
  repeat case_decide;
    (eexists _, _, _, _, rest; split; [exact J |]; split; [exact A |]);
    repeat split; intros; try done; try lia;
    try (apply Hmissing; assumption);
    try (match goal with H : get _ _ = None |- _ => apply Hmissing in H; lia end).
Qed.

(** ** The filter expression *)

Lemma hasChar_append (c : ascii) (a b : string) :
  QStr.hasChar c (a +:+ b) = QStr.hasChar c a || QStr.hasChar c b.
Proof. induction a as [|x a IH]; simpl; [done | by rewrite IH, orb_assoc]. Qed.

Lemma hasChar_prefix (c : ascii) (sub s : string) :
  String.prefix sub s = true → QStr.hasChar c sub = true → QStr.hasChar c s = true.
Proof.
  revert s. induction sub as [|x sub IH]; intros s; simpl; [done|].
  destruct s as [|y s]; [done|]. simpl.
  destruct (ascii_dec x y) as [->|]; [|done].
  intros Hp. destruct (bool_decide (y = c)); simpl; [done | by apply IH].
Qed.

(** A string lacking a character of [sub] does not contain [sub]. *)
Lemma contains_hasChar (c : ascii) (s sub : string) :
  QStr.hasChar c sub = true → QStr.hasChar c s = false → QStr.contains s sub = false.
Proof.
  intros Hsub. induction s as [|x s IH]; simpl.
  - intros _. by destruct sub.
  - intros Hs. apply orb_false_iff in Hs as [Hx Hs]. rewrite (IH Hs), orb_false_r.
    destruct sub as [|y sub]; [done|].
    destruct (ascii_dec y x) as [->|]; [|done].
    destruct (String.prefix sub s) eqn:Hp; [|done].
    simpl in Hsub. rewrite Hx in Hsub. simpl in Hsub.
    by rewrite (hasChar_prefix c sub s Hp Hsub) in Hs.
Qed.

Lemma contains_startsWith (s sub : string) :
  QStr.startsWith s sub = true → QStr.contains s sub = true.
Proof.
  unfold QStr.startsWith. intros H.
  destruct s; cbn [QStr.contains]; by rewrite H.
Qed.

(** A decimal numeral has no letter [y]. *)
Lemma hasChar_number (n : Z) : QStr.hasChar "y" (QStr.number n) = false.
Proof.
  unfold QStr.number.
  assert (∀ d, QStr.hasChar "y" (NilEmpty.string_of_uint d) = false) as Hu.
  { induction d; simpl; done. }
  assert (∀ d, QStr.hasChar "y" (NilZero.string_of_uint d) = false) as Hz.
  { intros d. destruct d; try apply Hu. done. }
  destruct (Z.to_int n); simpl; by rewrite ?Hz.
Qed.

(** The scale stage and what follows it have no letter [y]. *)
Lemma scale_stage_no_y (env : Env) (range : string) :
  QStr.hasChar "y" range = false →
  QStr.hasChar "y" (("scale=width=-2:height=" +:+ QStr.number (resolution env))
                    +:+ range +:+ hwFilters env) = false.
Proof.
  intros Hr. rewrite !hasChar_append, hasChar_number, Hr.
  unfold hwFilters. by destruct (_ && _).
Qed.

Lemma generateVideoProxy_vf (env : Env) (producer : Producer) (fullRange : bool)
    (scanMode : ScanMode) (aspectRatio : QPoint) (resource fileName : string) :
  ∃ before after,
    videoArgs env producer fullRange scanMode aspectRatio resource fileName
    = before ++ "-vf" :: videoFilterArg env fullRange scanMode :: after.
Proof.
  destruct (videoArgs_colorspace env producer fullRange scanMode aspectRatio
              resource fileName) as [rest ->].
  unfold videoArgsFilter.
  set (mapped := if bool_decide (get_int producer "video_index"
                                 < get_int producer "audio_index")
                 then _ else _).
  exists (mapped ++ ["-map_metadata"; "0"; "-ignore_unknown"]).
  destruct fullRange; eexists; rewrite <- !app_assoc; reflexivity.
Qed.

(** C7. The job built by [generateVideoProxy] carries the filter
    expression right after [-vf]. With [Automatic] it starts with the
    stage [yadif=deint=interlaced] and nowhere contains [parity]; with
    [InterlacedTopFieldFirst] it starts with [yadif=parity=tff], with
    [InterlacedBottomFieldFirst] with [yadif=parity=bff]; with
    [Progressive] it starts with the scale stage and nowhere contains
    [yadif]. *)
Theorem C7_deinterlace_stage (env : Env) (w : World) (producer : Producer)
    (fullRange : bool) (scanMode : ScanMode) (aspectRatio : QPoint) (replace : bool) :
  let expr := videoFilterArg env fullRange scanMode in
  ∃ job before after,
    jobs (generateVideoProxy env w producer fullRange scanMode aspectRatio replace)
      = jobs w ++ [job]
    ∧ jobArgs job = before ++ "-vf" :: expr :: after
    ∧ (scanMode = Automatic →
         QStr.startsWith expr "yadif=deint=interlaced,scale=" = true
         ∧ QStr.contains expr "yadif=deint=interlaced" = true
         ∧ QStr.contains expr "parity" = false)
    ∧ (scanMode = InterlacedTopFieldFirst →
         QStr.startsWith expr "yadif=parity=tff,scale=" = true
         ∧ QStr.contains expr "parity=tff" = true)
    ∧ (scanMode = InterlacedBottomFieldFirst →
         QStr.startsWith expr "yadif=parity=bff,scale=" = true
         ∧ QStr.contains expr "parity=bff" = true)
    ∧ (scanMode = Progressive →
         QStr.startsWith expr "scale=" = true
         ∧ QStr.contains expr "yadif" = false).
Proof.
  intros expr.
  destruct (generateVideoProxy_job env w producer fullRange scanMode aspectRatio replace)
    as [fileName J].
  destruct (generateVideoProxy_vf env producer fullRange scanMode aspectRatio
              (resource producer) fileName) as (before & after & A).
  eexists _, before, after. split; [exact J |]. split; [exact A |].
  assert (∀ range, QStr.hasChar "y" range = false →
            QStr.contains (("scale=width=-2:height=" +:+ QStr.number (resolution env))
                           +:+ range +:+ hwFilters env) "parity" = false) as Hparity.
  { intros range Hr. apply (contains_hasChar "y"); [done | by apply scale_stage_no_y]. }
  assert (∀ range, QStr.hasChar "y" range = false →
            QStr.contains (("scale=width=-2:height=" +:+ QStr.number (resolution env))
                           +:+ range +:+ hwFilters env) "yadif" = false) as Hyadif.
  { intros range Hr. apply (contains_hasChar "y"); [done | by apply scale_stage_no_y]. }
  subst expr. unfold videoFilterArg, videoFilters.
  split; [intros -> | split; [intros -> | split; intros ->]];
    destruct fullRange; simpl;
    repeat split; try reflexivity;
    try (apply Hparity; reflexivity); apply Hyadif; reflexivity.
Qed.

(** ** Clips with a ready proxy *)




(** C8 (the code at the failing input). The clip is tagged, the old
    resource is stashed and true is returned, but the resource is set to
    the path in the global folder, where no file is: [generateIfNotExists]
    looks for the file in the project folder itself, not in its [proxies]
    subfolder where [fileExists] found it. *)
Theorem C8_project_proxy_not_used :
  fileExists c8_env c8_world c8_producer = true
  ∧ fs c8_world !! "/proj/proxies/H.mp4" = Some (File 1000)
  ∧ fs c8_world !! "/cache/H.mp4" = None
  ∧ (generateIfNotExists c8_env c8_world c8_producer false).1.1 = true
  ∧ get_int (generateIfNotExists c8_env c8_world c8_producer false).1.2
      kIsProxyProperty = 1
  ∧ get (generateIfNotExists c8_env c8_world c8_producer false).1.2
      kOriginalResourceProperty = Some "/media/a.mov"
  ∧ get (generateIfNotExists c8_env c8_world c8_producer false).1.2 "resource"
    = Some "/cache/H.mp4"
  ∧ get (generateIfNotExists c8_env c8_world c8_producer false).1.2 "resource"
    ≠ Some "/proj/proxies/H.mp4".
Proof. repeat split; try (vm_compute; reflexivity). vm_compute. discriminate. Qed.

(** ** Clips without a proxy *)

Lemma generateVideoProxy_submits (env : Env) (w : World) (producer : Producer)
    (fullRange : bool) (scanMode : ScanMode) (aspectRatio : QPoint) (replace : bool) :
  ∃ job,
    jobs (generateVideoProxy env w producer fullRange scanMode aspectRatio replace)
    = jobs w ++ [job].
Proof.
  destruct (generateVideoProxy_job env w producer fullRange scanMode aspectRatio replace)
    as [f J]. eauto.
Qed.

Lemma generateImageProxy_submits (env : Env) (w : World) (producer : Producer)
    (replace : bool) :
  ∃ job, jobs (generateImageProxy env w producer replace) = jobs w ++ [job].
Proof.
  destruct (generateImageProxy_effects env w producer replace)
    as (ok & made & ok' & _ & _ & J & _). eauto.
Qed.

Lemma jobs_grown (l : list Job) (job : Job) : l ++ [job] ≠ l.
Proof.
  intros H. apply (f_equal length) in H. rewrite length_app in H. simpl in H. lia.
Qed.

(** The default threshold, those of the preview scales, and three whose
    exact value is a half. *)
Lemma threshold_values :
  (∀ env, playerPreviewScale (settings env) = 0 → threshold env = 702)
  ∧ (∀ env, playerPreviewScale (settings env) = 360 → threshold env = 468)
  ∧ (∀ env, playerPreviewScale (settings env) = 540 → threshold env = 702)
  ∧ (∀ env, playerPreviewScale (settings env) = 720 → threshold env = 936)
  ∧ (∀ env, playerPreviewScale (settings env) = 45 → threshold env = 58)
  ∧ (∀ env, playerPreviewScale (settings env) = 55 → threshold env = 72)
  ∧ (∀ env, playerPreviewScale (settings env) = 95 → threshold env = 123).
Proof.
  repeat split; intros env H; unfold threshold, resolution; rewrite H;
    vm_compute; reflexivity.
Qed.

(** For a resolution that is a multiple of ten, up to 4000 lines, the
    single-precision threshold is the exact 13/10 of the resolution. *)
Lemma threshold_exact_on_tens (env : Env) (k : Z) :
  1 <= k <= 400 → playerPreviewScale (settings env) = 10 * k →
  threshold env = 13 * k.
Proof.
  intros Hk Hr. unfold threshold, resolution.
  rewrite Hr, bool_decide_eq_true_2 by lia.
  assert (forallb (λ n : nat,
            Fp.qRound Fp.prec32 Fp.emax32
              (SFmul Fp.prec32 Fp.emax32 kProxyResolutionRatio
                 (Fp.ofInt Fp.prec32 Fp.emax32 (10 * Z.of_nat n)))
            =? 13 * Z.of_nat n) (seq 1 400) = true) as Hall
    by (vm_compute; reflexivity).
  rewrite forallb_forall in Hall.
  specialize (Hall (Z.to_nat k)). rewrite Z2Nat.id in Hall by lia.
  apply Z.eqb_eq, Hall, in_seq. lia.
Qed.

(** Up to 10000 lines the single-precision threshold is 13/10 of the
    resolution rounded to the nearest integer, except that a half may be
    rounded down: [1.3f] is a little less than 13/10. *)
Lemma threshold_rounding (env : Env) :
  1 <= resolution env <= 10000 →
  (resolution env mod 10 ≠ 5 → threshold env = (13 * resolution env + 5) / 10)
  ∧ (threshold env = (13 * resolution env + 5) / 10
     ∨ threshold env = (13 * resolution env + 5) / 10 - 1).
Proof.
  intros Hr. unfold threshold.
  assert (forallb (λ n : nat,
            let r := Z.of_nat n in
            let t := Fp.qRound Fp.prec32 Fp.emax32
                       (SFmul Fp.prec32 Fp.emax32 kProxyResolutionRatio
                          (Fp.ofInt Fp.prec32 Fp.emax32 r)) in
            if r mod 10 =? 5
            then (t =? (13 * r + 5) / 10) || (t =? (13 * r + 5) / 10 - 1)
            else t =? (13 * r + 5) / 10) (seq 1 (Z.to_nat 10000)) = true) as Hall
    by (vm_compute; reflexivity).
  rewrite forallb_forall in Hall.
  specialize (Hall (Z.to_nat (resolution env))).
  rewrite Z2Nat.id in Hall by lia. cbv zeta in Hall.
  assert (In (Z.to_nat (resolution env)) (seq 1 (Z.to_nat 10000))) as Hin
    by (apply in_seq; lia).
  specialize (Hall Hin).
  destruct (resolution env mod 10 =? 5) eqn:Hm.
  - apply Z.eqb_eq in Hm. split; [done|].
    apply orb_true_iff in Hall as [H|H]; apply Z.eqb_eq in H; tauto.
  - apply Z.eqb_eq in Hall. tauto.
Qed.

(** C10 (amended). For an eligible clip with neither a ready nor a
    pending proxy file, and a target resolution from 1 to 10000 lines,
    [generateIfNotExists] returns false; it submits a job only if
    [meta.media.width] and [meta.media.height], read after the frame was
    fetched, both exceed the bound [qRound(1.3f * resolution())]; if one of
    them does not, the world (files, queue, log) is left as it was; and for
    a video or still-image clip whose sizes both exceed the bound one job
    is submitted. The bound is 13/10 of the resolution rounded to the
    nearest integer when that is no half (the resolution does not end in
    5); for a resolution that ends in 5 it is the half rounded up or the
    half rounded down. *)
Theorem C10_threshold_gate (env : Env) (w : World) (producer : Producer)
    (replace : bool) :
  eligible env producer →
  fileExists env w producer = false →
  filePending env w producer = false →
  1 <= resolution env <= 10000 →
  let r := generateIfNotExists env w producer replace in
  let probed := get_frame env producer in
  let width := get_int probed "meta.media.width" in
  let height := get_int probed "meta.media.height" in
  let rounded := (13 * resolution env + 5) / 10 in
  let bound := threshold env in
  r.1.1 = false
  ∧ (resolution env mod 10 ≠ 5 → bound = rounded)
  ∧ (bound = rounded ∨ bound = rounded - 1)
  ∧ (jobs r.2 ≠ jobs w → width > bound ∧ height > bound)
  ∧ (¬ (width > bound ∧ height > bound) → r.2 = w)
  ∧ (QStr.startsWith (fromCString (get producer "mlt_service")) "avformat" = true
     ∨ isValidImage producer = true →
     width > bound → height > bound →
     ∃ job, jobs r.2 = jobs w ++ [job]).
Proof.
  intros (He & Hv & Hd & Hp) Hready Hpending Hres r probed width height rounded bound.
  destruct (threshold_rounding env Hres) as [Hexact Hnear].
  split; [| split; [exact Hexact | split; [exact Hnear |]]];
    subst r width height probed bound; unfold generateIfNotExists;
    rewrite He, Hv, Hd, Hp, Hready, Hpending; simpl.
  { destruct (QStr.startsWith _ "avformat").
    - by destruct (_ && _).
    - destruct (isValidImage producer); [|done]. by destruct (_ && _). }
  destruct (QStr.startsWith (fromCString (get producer "mlt_service")) "avformat") eqn:Hs.
  - destruct (bool_decide (get_int (get_frame env producer) "meta.media.width" > threshold env))
      eqn:Hw; simpl.
    + destruct (bool_decide (get_int (get_frame env producer) "meta.media.height" > threshold env))
        eqn:Hh; simpl.
      * apply bool_decide_eq_true in Hw, Hh.
        repeat split; try done; try tauto.
        intros _ _ _. apply generateVideoProxy_submits.
      * apply bool_decide_eq_false in Hh.
        repeat split; try done; try tauto.
    + apply bool_decide_eq_false in Hw.
      repeat split; try done; try tauto.
  - destruct (isValidImage producer) eqn:Hi.
    + destruct (bool_decide (get_int (get_frame env producer) "meta.media.width" > threshold env))
        eqn:Hw; simpl.
      * destruct (bool_decide (get_int (get_frame env producer) "meta.media.height" > threshold env))
          eqn:Hh; simpl.
        -- apply bool_decide_eq_true in Hw, Hh.
           repeat split; try done; try tauto.
           intros _ _ _. apply generateImageProxy_submits.
        -- apply bool_decide_eq_false in Hh.
           repeat split; try done; try tauto.
      * apply bool_decide_eq_false in Hw.
        repeat split; try done; try tauto.
    + simpl. repeat split; try done. intros [?|?]; done.
Qed.

(** The threshold check of C10 on a full-HD clip under the default
    resolution: the bound is 702, which 1920 and 1080 exceed, and the one
    job is submitted. *)
Lemma C10_witness :
  eligible c10_env c10_producer
  ∧ fileExists c10_env c10_world c10_producer = false
  ∧ filePending c10_env c10_world c10_producer = false
  ∧ 1 <= resolution c10_env <= 10000
  ∧ (generateIfNotExists c10_env c10_world c10_producer false).1.1 = false
  ∧ threshold c10_env = 702
  ∧ ∃ job,
      jobs (generateIfNotExists c10_env c10_world c10_producer false).2
      = jobs c10_world ++ [job].
Proof.
  assert (eligible c10_env c10_producer) as He
    by (repeat split; vm_compute; reflexivity).
  assert (fileExists c10_env c10_world c10_producer = false) as Hr
    by (vm_compute; reflexivity).
  assert (filePending c10_env c10_world c10_producer = false) as Hp
    by (vm_compute; reflexivity).
  assert (1 <= resolution c10_env <= 10000) as Hres
    by (split; vm_compute; discriminate).
  split; [exact He | split; [exact Hr | split; [exact Hp | split; [exact Hres |]]]].
  pose proof (C10_threshold_gate c10_env c10_world c10_producer false He Hr Hp Hres)
    as (H1 & H2 & _ & _ & _ & H6).
  split; [exact H1 | split].
  - refine (eq_trans (H2 _) _); [vm_compute; discriminate | vm_compute; reflexivity].
  - apply H6; [left; reflexivity | vm_compute; reflexivity | vm_compute; reflexivity].
Defined.

(** C10 as stated fails: under a preview scale of 95 lines, 13/10 of the
    resolution is 123.5, which rounds to 124, but the bound of the code is
    123, and a clip of 124 by 124 gets a job although its sizes do not
    exceed 124; likewise the bound is 58, not 59, at 45 lines. *)
Lemma C10_counterexample :
  eligible c10_half_env c10_half_producer
  ∧ fileExists c10_half_env c10_world c10_half_producer = false
  ∧ filePending c10_half_env c10_world c10_half_producer = false
  ∧ resolution c10_half_env = 95
  ∧ (13 * 95 + 5) / 10 = 124
  ∧ threshold c10_half_env = 123
  ∧ get_int (get_frame c10_half_env c10_half_producer) "meta.media.width" = 124
  ∧ get_int (get_frame c10_half_env c10_half_producer) "meta.media.height" = 124
  ∧ ¬ (124 > 124)
  ∧ length (jobs (generateIfNotExists c10_half_env c10_world c10_half_producer false).2)
    = 1%nat
  ∧ Fp.qRound Fp.prec32 Fp.emax32
      (SFmul Fp.prec32 Fp.emax32 kProxyResolutionRatio
         (Fp.ofInt Fp.prec32 Fp.emax32 45)) = 58
  ∧ (13 * 45 + 5) / 10 = 59.
Proof.
  repeat split; try (vm_compute; reflexivity); vm_compute; discriminate.
Qed.

(* ===================================================================== *)
(** * Further properties *)
(* ===================================================================== *)

(** ** Rewriting of one scope *)

Lemma filterProperties_fst (root svc spd nr : string) (ps : list MltProperty) :
  (filterProperties root svc spd nr ps).*1
  = filter (λ k, k ≠ kIsProxyProperty ∧ k ≠ kOriginalResourceProperty) ps.*1.
Proof.
  revert nr. induction ps as [|p ps IH]; intros nr; [done|].
  rewrite fmap_cons, filter_cons. simpl.
  destruct (decide (p.1 ≠ kIsProxyProperty ∧ p.1 ≠ kOriginalResourceProperty))
    as [K|K];
    destruct (decide (p.1 = "resource")) as [E1|N1];
    try (exfalso; apply K; rewrite E1; done);
    try (destruct (decide (svc = "timewarp")); csimpl; by rewrite IH);
    destruct (decide (p.1 = "warp_resource")) as [E2|N2];
    try (exfalso; apply K; rewrite E2; done);
    csimpl; by rewrite IH.
Qed.

(** The names of a rewritten scope: with the marker, the names of the
    scope without the marker and the stash, in the same order and number;
    without the marker, the names as they were. *)
Theorem rewriteProperties_names (root : string) (scope : list MltProperty) :
  (rewriteProperties root scope).*1
  = if bool_decide (kIsProxyProperty ∈ scope.*1)
    then filter (λ k, k ≠ kIsProxyProperty ∧ k ≠ kOriginalResourceProperty) scope.*1
    else scope.*1.
Proof.
  case_bool_decide as Hm.
  - rewrite rewriteProperties_proxy by done. apply filterProperties_fst.
  - by rewrite rewriteProperties_plain.
Qed.

(** Rewriting a scope that was already rewritten changes nothing. *)
Theorem rewriteProperties_idempotent (root : string) (scope : list MltProperty) :
  rewriteProperties root (rewriteProperties root scope)
  = rewriteProperties root scope.
Proof.
  apply rewriteProperties_plain.
  destruct (decide (kIsProxyProperty ∈ scope.*1)) as [Hm|Hm].
  - rewrite rewriteProperties_proxy by done. rewrite filterProperties_fst.
    intros [[H _] _]%list_elem_of_filter. done.
  - by rewrite rewriteProperties_plain.
Qed.

Lemma filterProperties_ordinary (root svc spd nr : string) (ps : list MltProperty) :
  filter (λ p : MltProperty, ordinaryName p.1) (filterProperties root svc spd nr ps)
  = filter (λ p : MltProperty, ordinaryName p.1) ps.
Proof.
  revert nr. induction ps as [|p ps IH]; intros nr; [done|].
  simpl. rewrite (filter_cons _ p).
  destruct (decide (ordinaryName p.1)) as [(A & B & C & D)|K].
  - rewrite decide_False by done. rewrite decide_False by done.
    rewrite decide_True by done. rewrite filter_cons. simpl.
    rewrite decide_True by (unfold ordinaryName; done).
    destruct p. by rewrite IH.
  - destruct (decide (p.1 = "resource")) as [E1|N1].
    { destruct (decide (svc = "timewarp")); rewrite filter_cons; simpl;
        (rewrite decide_False by done); apply IH. }
    destruct (decide (p.1 = "warp_resource")) as [E2|N2].
    { rewrite filter_cons; simpl. rewrite decide_False by done. apply IH. }
    destruct (decide (p.1 ≠ kIsProxyProperty ∧ p.1 ≠ kOriginalResourceProperty))
      as [[C D]|N3]; [|apply IH].
    exfalso. apply K. unfold ordinaryName. done.
Qed.

(** Every property other than [resource], [warp_resource], the marker and
    the stash is written with the value it had, in the original order,
    whether or not the scope carries the marker. *)
Theorem rewriteProperties_ordinary (root : string) (scope : list MltProperty) :
  filter (λ p : MltProperty, ordinaryName p.1) (rewriteProperties root scope)
  = filter (λ p : MltProperty, ordinaryName p.1) scope.
Proof.
  destruct (decide (kIsProxyProperty ∈ scope.*1)) as [Hm|Hm].
  - rewrite rewriteProperties_proxy by done. apply filterProperties_ordinary.
  - by rewrite rewriteProperties_plain.
Qed.

(** ** The value written for [resource] and [warp_resource] *)

Lemma split_first_resource (scope : list MltProperty) :
  "resource" ∈ scope.*1 →
  ∃ before v after,
    scope = before ++ ("resource", v) :: after ∧ "resource" ∉ before.*1.
Proof.
  induction scope as [|q qs IH]; [intros H; by apply elem_of_nil in H|].
  rewrite fmap_cons, elem_of_cons. intros Hin.
  destruct (decide (q.1 = "resource")) as [E|N].
  - exists [], q.2, qs. split; [destruct q; simpl in *; by subst | apply not_elem_of_nil].
  - destruct Hin as [Hin|Hin]; [done|].
    destruct (IH Hin) as (b & v & a & -> & Hb).
    exists (q :: b), v, a. split; [done|].
    rewrite fmap_cons. apply not_elem_of_cons. split; [congruence | done].
Qed.

(** The value the second loop gives the first [resource] property. *)
Lemma rewriteProperties_first_resource (root : string) (scope : list MltProperty) :
  kIsProxyProperty ∈ scope.*1 → "resource" ∈ scope.*1 →
  ∃ before after,
    rewriteProperties root scope
    = before
        ++ ("resource",
            let path := relativize root (newResource (scanProperties scope)) in
            if decide (default "" (lastValue "mlt_service" scope) = "timewarp")
            then QStr.arg
                   (QStr.arg "%1:%2" (default "1" (lastValue "warp_speed" scope)))
                   path
            else path) :: after
    ∧ "resource" ∉ before.*1.
Proof.
  intros Hm Hr. rewrite rewriteProperties_proxy by done.
  destruct (split_first_resource scope Hr) as (b & v & a & E & Hb).
  subst scope. rewrite filterProperties_app by done. simpl.
  eexists _, _. split.
  - destruct (decide (default "" (lastValue "mlt_service" _) = "timewarp"));
      reflexivity.
  - by apply filterProperties_no_resource.
Qed.

(** A time-remapped proxy clip: the first [resource] property is written
    as [QString("%1:%2").arg(speed).arg(path)] composes it, the speed being
    the last [warp_speed] of the scope, or 1 when there is none, and the
    path the original made relative. The speed takes the place of [%1];
    the path then takes the place of the lowest place marker left, which
    is [%2] unless the speed brought one: for a speed without [%] the
    value is speed, colon, path. *)
Theorem timewarp_resource_composed (root : string) (scope : list MltProperty)
    (orig : string) :
  kIsProxyProperty ∈ scope.*1 → "resource" ∈ scope.*1 →
  lastValue kOriginalResourceProperty scope = Some orig → orig ≠ "" →
  lastValue "mlt_service" scope = Some "timewarp" →
  let speed := default "1" (lastValue "warp_speed" scope) in
  ∃ before value after,
    rewriteProperties root scope = before ++ ("resource", value) :: after
    ∧ ("resource" ∉ before.*1)
    ∧ value = QStr.arg (speed +:+ ":%2") (relativize root orig)
    ∧ (QStr.hasChar "%" speed = false →
       value = speed +:+ ":" +:+ relativize root orig).
Proof.
  intros Hm Hr Ho Hne Hs speed.
  destruct (rewriteProperties_first_resource root scope Hm Hr) as (b & a & E & Hb).
  eexists b, _, a. split; [exact E|]. split; [done|].
  unfold scanProperties.
  rewrite (scan_newResource_stash scope scanInit orig Ho Hne), Hs. simpl.
  fold speed. split.
  - by rewrite arg_speed.
  - intros Hp. by apply arg_composite.
Qed.

Lemma scan_newResource_skipped (ps : list MltProperty) (a : Scan) :
  kOriginalResourceProperty ∉ ps.*1 → "resource" ∉ ps.*1 →
  newResource (fold_left scanStep ps a) = newResource a.
Proof.
  revert a. induction ps as [|p ps IH]; intros a Ho Hr; [done|].
  rewrite fmap_cons in Ho, Hr.
  apply not_elem_of_cons in Ho as [Ho1 Ho], Hr as [Hr1 Hr].
  simpl. rewrite IH by done. unfold scanStep.
  repeat case_decide; try done; try congruence.
  all: rewrite (bool_decide_eq_false_2 (p.1 = "resource")) by congruence.
  all: rewrite andb_false_r; repeat case_decide; done.
Qed.

(** Without a stash the path is the value of the first [resource]
    property, when that is not empty. *)
Lemma scan_newResource_fallback (before after : list MltProperty) (v : string) :
  kOriginalResourceProperty ∉ (before ++ ("resource", v) :: after).*1 →
  "resource" ∉ before.*1 → v ≠ "" →
  newResource (scanProperties (before ++ ("resource", v) :: after)) = v.
Proof.
  intros Ho Hb Hv. unfold scanProperties.
  rewrite fmap_app, fmap_cons, not_elem_of_app, not_elem_of_cons in Ho.
  destruct Ho as (Ho1 & _ & Ho2).
  rewrite fold_left_app. simpl.
  assert (newResource (scanStep (fold_left scanStep before scanInit) ("resource", v)) = v)
    as Hstep.
  { unfold scanStep. simpl. rewrite scan_newResource_skipped by done. simpl.
    repeat case_decide; done. }
  rewrite scan_newResource_kept; [done | done | by rewrite Hstep].
Qed.

(** A proxy scope without a stash: the first [resource] property is
    rewritten from its own value, made relative to the root; for a
    time-remapped clip that path is composed with the speed as
    [QString("%1:%2").arg(speed).arg(path)] does it, which is speed, colon,
    path for a speed without [%]. *)
Theorem resource_without_stash (root : string) (before after : list MltProperty)
    (v : string) :
  let scope := before ++ ("resource", v) :: after in
  let service := default "" (lastValue "mlt_service" scope) in
  let speed := default "1" (lastValue "warp_speed" scope) in
  kIsProxyProperty ∈ scope.*1 → kOriginalResourceProperty ∉ scope.*1 →
  "resource" ∉ before.*1 → v ≠ "" →
  ∃ before' value after',
    rewriteProperties root scope = before' ++ ("resource", value) :: after'
    ∧ ("resource" ∉ before'.*1)
    ∧ (service ≠ "timewarp" → value = relativize root v)
    ∧ (service = "timewarp" →
       value = QStr.arg (speed +:+ ":%2") (relativize root v)
       ∧ (QStr.hasChar "%" speed = false →
          value = speed +:+ ":" +:+ relativize root v)).
Proof.
  intros scope service speed Hm Ho Hb Hv.
  assert ("resource" ∈ scope.*1) as Hr.
  { subst scope. rewrite fmap_app, fmap_cons, elem_of_app, elem_of_cons. auto. }
  destruct (rewriteProperties_first_resource root scope Hm Hr) as (b & a & E & Hb').
  eexists b, _, a. split; [exact E|]. split; [done|].
  fold service speed. cbv zeta.
  assert (newResource (scanProperties scope) = v) as ->
    by (subst scope; by apply scan_newResource_fallback).
  destruct (decide (service = "timewarp")) as [Et|Nt].
  - split; [done|]. intros _. split.
    + by rewrite arg_speed.
    + intros Hp. by apply arg_composite.
  - split; [done | done].
Qed.

Lemma filterProperties_warp_resource (root svc spd nr : string)
    (ps : list MltProperty) :
  "resource" ∉ ps.*1 →
  (∀ x, ("warp_resource", x) ∈ filterProperties root svc spd nr ps → x = nr)
  ∧ ("warp_resource" ∈ ps.*1 →
     ("warp_resource", nr) ∈ filterProperties root svc spd nr ps).
Proof.
  induction ps as [|p ps IH]; intros Hr.
  - split; [intros x H; by apply elem_of_nil in H | intros H; by apply elem_of_nil in H].
  - rewrite fmap_cons in Hr. apply not_elem_of_cons in Hr as [Hr1 Hr].
    destruct (IH Hr) as [IH1 IH2]. simpl.
    rewrite decide_False by congruence.
    destruct (decide (p.1 = "warp_resource")) as [E|N].
    + split.
      * intros x [[= _ ->]|Hin]%elem_of_cons; [done | by apply IH1].
      * intros _. rewrite E. apply elem_of_cons. by left.
    + rewrite elem_of_cons.
      destruct (decide (p.1 ≠ kIsProxyProperty ∧ p.1 ≠ kOriginalResourceProperty)).
      * split.
        -- intros x [[= Hp _]|Hin]%elem_of_cons; [congruence | by apply IH1].
        -- intros [?|Hin]; [congruence|]. apply elem_of_cons. right. by apply IH2.
      * split; [done|]. intros [?|Hin]; [congruence | by apply IH2].
Qed.

(** The path is made relative when the [resource] property is reached: in
    a proxy scope with a non-empty stash, a [warp_resource] before the
    first [resource] is written with the original path as it stands, and a
    [warp_resource] between the first and a second [resource] with the
    relative path. *)
Theorem warp_resource_by_position (root : string)
    (before middle : list MltProperty) (v orig : string) :
  let scope := before ++ ("resource", v) :: middle in
  kIsProxyProperty ∈ scope.*1 →
  lastValue kOriginalResourceProperty scope = Some orig → orig ≠ "" →
  "resource" ∉ before.*1 → "resource" ∉ middle.*1 →
  ∃ before' value middle',
    rewriteProperties root scope = before' ++ ("resource", value) :: middle'
    ∧ (∀ x, ("warp_resource", x) ∈ before' → x = orig)
    ∧ ("warp_resource" ∈ before.*1 → ("warp_resource", orig) ∈ before')
    ∧ (∀ x, ("warp_resource", x) ∈ middle' → x = relativize root orig)
    ∧ ("warp_resource" ∈ middle.*1 → ("warp_resource", relativize root orig) ∈ middle').
Proof.
  intros scope Hm Ho Hne Hb Hmid.
  rewrite rewriteProperties_proxy by done.
  unfold scanProperties. rewrite (scan_newResource_stash scope scanInit orig Ho Hne).
  subst scope. rewrite filterProperties_app by done. simpl.
  set (svc := default "" (lastValue "mlt_service" _)).
  set (spd := default "1" (lastValue "warp_speed" _)).
  destruct (filterProperties_warp_resource root svc spd orig before Hb) as [B1 B2].
  destruct (filterProperties_warp_resource root svc spd (relativize root orig) middle Hmid)
    as [M1 M2].
  destruct (decide (svc = "timewarp"));
    (eexists _, _, _; split; [reflexivity|]; done).
Qed.

(** ** Relative paths, continued *)

Lemma mid_suffix (n : nat) (s : string) : ∃ pre, s = pre +:+ QStr.mid n s.
Proof.
  revert s. induction n as [|n IH]; intros s; [by exists ""|].
  destruct s as [|c s]; simpl; [by exists ""|].
  destruct (IH s) as [pre E]. exists (String c pre).
  change (String c s = String c (pre +:+ QStr.mid n s)). by f_equal.
Qed.

(** Making a path relative only ever cuts a piece off its front. *)
Theorem relativize_suffix (root path : string) :
  ∃ pre, path = pre +:+ relativize root path.
Proof.
  unfold relativize.
  destruct (negb (QStr.isEmpty root) && QStr.startsWith path root);
    [|by exists ""].
  destruct (QStr.endsWith root "/"); apply mid_suffix.
Qed.

Lemma mid_append_more (p rest : string) (c : ascii) :
  QStr.mid (String.length p + 1) (p +:+ String c rest) = rest.
Proof. induction p as [|x p IH]; simpl; [done | done]. Qed.

Lemma mid_beyond (p : string) : QStr.mid (String.length p + 1) p = "".
Proof. induction p as [|x p IH]; simpl; done. Qed.

Lemma prefix_self (p : string) : String.prefix p p = true.
Proof.
  induction p as [|c p IH]; simpl; [done|].
  destruct (ascii_dec c c); [done | congruence].
Qed.

(** A root without a trailing slash: after the root one more character is
    cut, whichever it is; the root itself becomes the empty path; and an
    empty root leaves every path as it is. *)
Theorem relativize_root_without_slash (root : string) :
  (root ≠ "" → QStr.endsWith root "/" = false →
   (∀ c rest, relativize root (root +:+ String c rest) = rest)
   ∧ relativize root root = "")
  ∧ (∀ path, relativize "" path = path).
Proof.
  split; [|done].
  intros Hne Hend. unfold relativize, QStr.startsWith, QStr.size.
  rewrite Hend. split.
  - intros c rest. rewrite prefix_append, mid_append_more. by destruct root.
  - rewrite prefix_self, mid_beyond. by destruct root.
Qed.

(** ** The loop as a stream *)

(** The loop with what was written so far taken away. *)
Lemma filterStep_output (root : string) (st : Rewriter) (t : Token) :
  let fresh := {| properties := properties st;
                  isPropertyElement := isPropertyElement st; newXml := [] |} in
  newXml (filterStep root st t) = newXml st ++ newXml (filterStep root fresh t)
  ∧ properties (filterStep root st t) = properties (filterStep root fresh t)
  ∧ isPropertyElement (filterStep root st t)
    = isPropertyElement (filterStep root fresh t).
Proof.
  destruct st as [buffer flag out].
  destruct t; simpl; try (by rewrite ?app_nil_r).
  - destruct flag; simpl; by rewrite ?app_nil_r.
  - case_decide; simpl; by rewrite ?app_nil_r.
  - case_decide; simpl; by rewrite ?app_nil_r.
Qed.

Lemma filterFrom_output (root : string) (ts : list Token) (st : Rewriter) :
  let fresh := {| properties := properties st;
                  isPropertyElement := isPropertyElement st; newXml := [] |} in
  newXml (filterFrom root st ts) = newXml st ++ newXml (filterFrom root fresh ts)
  ∧ properties (filterFrom root st ts) = properties (filterFrom root fresh ts)
  ∧ isPropertyElement (filterFrom root st ts)
    = isPropertyElement (filterFrom root fresh ts).
Proof.
  revert st. induction ts as [|t ts IH]; intros st; simpl.
  - by rewrite app_nil_r.
  - fold (filterFrom root (filterStep root st t) ts).
    set (fresh := {| properties := properties st;
                     isPropertyElement := isPropertyElement st; newXml := [] |}).
    fold (filterFrom root (filterStep root fresh t) ts).
    destruct (filterStep_output root st t) as (A1 & A2 & A3). fold fresh in A1, A2, A3.
    destruct (IH (filterStep root st t)) as (B1 & B2 & B3).
    destruct (IH (filterStep root fresh t)) as (C1 & C2 & C3).
    rewrite B1, B2, B3, C1, C2, C3, A1, A2, A3, <- app_assoc. done.
Qed.

(** Scopes do not mix: after a tag that flushes the buffer, the rest of
    the document is treated as by a rewriter that starts with an empty
    buffer, whatever the scopes before held. *)
Theorem filterTokens_after_flush (root : string) (pre rest : list Token)
    (t : Token) (ops : list WriteOp) :
  flushOps t = Some ops →
  let st := filterTokens root (pre ++ [t]) in
  newXml (filterTokens root (pre ++ t :: rest))
  = newXml st
      ++ newXml (filterFrom root
                   {| properties := []; isPropertyElement := isPropertyElement st;
                      newXml := [] |} rest).
Proof.
  intros Hf st. subst st.
  replace (pre ++ t :: rest) with ((pre ++ [t]) ++ rest) by by rewrite <- app_assoc.
  unfold filterTokens. rewrite (filterFrom_app root rewriterInit (pre ++ [t]) rest).
  destruct (filterFrom_output root rest (filterFrom root rewriterInit (pre ++ [t])))
    as (E & _ & _).
  rewrite E. do 3 f_equal.
  rewrite filterFrom_app. simpl.
  by destruct (filterStep_flush root (filterFrom root rewriterInit pre) t ops Hf)
    as [_ ->].
Qed.

(** Without a flush nothing buffered is written. *)
Lemma filterFrom_unflushed (root : string) (ts : list Token) (st : Rewriter) :
  Forall (λ t, flushOps t = None) ts →
  ∃ ops,
    newXml (filterFrom root st ts) = newXml st ++ ops
    ∧ Forall plainItem (map inr ops : list (MltProperty + WriteOp))
    ∧ properties (filterFrom root st ts) = properties st ++ documentProperties ts.
Proof.
  intros Hts. revert st. induction Hts as [|t ts Ht _ IH]; intros st.
  - exists []. simpl. by rewrite !app_nil_r.
  - change (filterFrom root st (t :: ts))
      with (filterFrom root (filterStep root st t) ts).
    destruct (IH (filterStep root st t)) as (ops & E1 & E2 & E3).
    rewrite E1, E3, documentProperties_cons.
    assert (∃ o, newXml (filterStep root st t) = newXml st ++ o
                 ∧ Forall plainItem (map inr o : list (MltProperty + WriteOp))
                 ∧ properties (filterStep root st t)
                   = properties st ++ documentProperties [t])
      as (o & F1 & F2 & F3).
    { unfold documentProperties.
      destruct t; simpl in *;
        try (eexists [_]; split; [reflexivity|]; split;
             [by repeat constructor | by rewrite app_nil_r]);
        try (exists []; by rewrite !app_nil_r).
      - destruct (isPropertyElement st); simpl.
        + exists []. by rewrite !app_nil_r.
        + eexists [_]. split; [reflexivity|]. split;
            [by repeat constructor | by rewrite app_nil_r].
      - destruct (decide (name = "property")); [|done].
        exists []. simpl. by rewrite app_nil_r.
      - destruct (decide (name ≠ "property")); [done|].
        exists []. by rewrite !app_nil_r. }
    exists (o ++ ops). rewrite F1, F3, map_app, <- !app_assoc.
    split; [done|]. split; [by apply Forall_app | done].
Qed.

(** Buffered properties are written at a flush only: a stretch of the
    document without a start or end tag of a non-property element, for
    instance a document whose root element is a [property], has its
    properties buffered and none written. *)
Theorem properties_need_flush (root : string) (ts : list Token) :
  Forall (λ t, flushOps t = None) ts →
  writtenProperties (newXml (filterTokens root ts)) = []
  ∧ properties (filterTokens root ts) = documentProperties ts.
Proof.
  intros Hts.
  destruct (filterFrom_unflushed root ts rewriterInit Hts) as (ops & E1 & E2 & E3).
  unfold filterTokens. rewrite E1, E3. simpl. split; [|done].
  unfold writtenProperties.
  rewrite <- (render_inr ops), parseWritten_render by done.
  apply leftOf_inr.
Qed.

(** ** Clips for which nothing is generated *)

Lemma eligible_test (env : Env) (producer : Producer) :
  proxyEnabled (settings env) && is_valid producer
  && negb (bool_decide (get_int producer kDisableProxyProperty ≠ 0))
  && negb (bool_decide (get_int producer kIsProxyProperty ≠ 0)) = true
  ↔ eligible env producer.
Proof.
  unfold eligible.
  rewrite !andb_true_iff, !negb_true_iff, !bool_decide_eq_false.
  split; intros (((A & B) & C) & D) || intros (A & B & C & D); repeat split;
    try done; try lia.
Qed.

Lemma generateIfNotExists_not_eligible (env : Env) (w : World)
    (producer : Producer) (replace : bool) :
  ¬ eligible env producer →
  generateIfNotExists env w producer replace = (false, producer, w).
Proof.
  intros Hn. unfold generateIfNotExists.
  destruct (proxyEnabled (settings env) && is_valid producer
            && negb (bool_decide (get_int producer kDisableProxyProperty ≠ 0))
            && negb (bool_decide (get_int producer kIsProxyProperty ≠ 0))) eqn:E;
    [|done].
  exfalso. apply Hn. by apply eligible_test.
Qed.

(** Nothing happens, and false is returned, for a clip that is not
    eligible (proxies switched off, clip invalid, proxy disabled for the
    clip, or clip already a proxy) and for a clip that is neither an
    avformat clip nor a still image: the clip, the files, the queue and the
    log are as before. *)
Theorem generateIfNotExists_skips (env : Env) (w : World) (producer : Producer)
    (replace : bool) :
  ¬ eligible env producer
  ∨ (QStr.startsWith (fromCString (get producer "mlt_service")) "avformat" = false
     ∧ isValidImage producer = false) →
  generateIfNotExists env w producer replace = (false, producer, w).
Proof.
  intros [Hn | [Hs Hi]]; [by apply generateIfNotExists_not_eligible|].
  unfold generateIfNotExists, fileExists, filePending, proxyFileName.
  rewrite Hs, Hi. simpl. by destruct (_ && _ && _ && _).
Qed.

(** A clip whose proxy is pending is left alone: with no ready file but a
    pending file, nothing is submitted or touched and false is returned. *)
Theorem generateIfNotExists_pending (env : Env) (w : World) (producer : Producer)
    (replace : bool) :
  fileExists env w producer = false → filePending env w producer = true →
  generateIfNotExists env w producer replace = (false, producer, w).
Proof.
  intros Hr Hp. unfold generateIfNotExists. rewrite Hr, Hp. simpl.
  by destruct (_ && _ && _ && _).
Qed.

(** ** Clips with a ready proxy, continued *)

Lemma fileExists_kind (env : Env) (w : World) (producer : Producer) :
  fileExists env w producer = true →
  ∃ fileName,
    proxyFileName env producer kProxyVideoExtension kProxyImageExtension
    = Some fileName
    ∧ get producer "mlt_service" ≠ Some "timewarp".
Proof.
  unfold fileExists, proxyFileName, isValidImage.
  destruct (get producer "mlt_service") as [s|] eqn:Es; simpl.
  - destruct (QStr.startsWith s "avformat") eqn:Ea.
    + intros _. eexists. split; [done|]. intros [= ->]. done.
    + destruct (_ && _) eqn:Ei; [|done]. intros _. eexists. split; [done|].
      intros [= ->]. done.
  - done.
Qed.

(** Every other way ends in false. *)
Lemma generateIfNotExists_false (env : Env) (w : World) (producer : Producer)
    (replace : bool) :
  ¬ (eligible env producer ∧ fileExists env w producer = true) →
  (generateIfNotExists env w producer replace).1.1 = false.
Proof.
  intros Hn.
  destruct (decide (eligible env producer)) as [He|He];
    [|by rewrite generateIfNotExists_not_eligible].
  unfold generateIfNotExists.
  rewrite (proj2 (eligible_test env producer) He).
  destruct (fileExists env w producer) eqn:Hf; [exfalso; by apply Hn|].
  destruct (negb (filePending env w producer)); [|done].
  destruct (QStr.startsWith _ "avformat").
  - by destruct (_ && _).
  - destruct (isValidImage producer); [|done]. by destruct (_ && _).
Qed.

Lemma generateIfNotExists_true_inv (env : Env) (w : World) (producer : Producer)
    (replace : bool) :
  (generateIfNotExists env w producer replace).1.1 = true →
  eligible env producer ∧ fileExists env w producer = true.
Proof.
  intros Ht.
  destruct (decide (eligible env producer)) as [He|He].
  - destruct (fileExists env w producer) eqn:Hf; [done|].
    rewrite generateIfNotExists_false in Ht; [done|].
    intros [_ H]. rewrite Hf in H. done.
  - rewrite generateIfNotExists_false in Ht; [done | tauto].
Qed.

(** [generateIfNotExists] returns true exactly for an eligible clip with a
    ready proxy file, and then it submits and touches nothing. *)
Theorem generateIfNotExists_true (env : Env) (w : World) (producer : Producer)
    (replace : bool) :
  ((generateIfNotExists env w producer replace).1.1 = true
   ↔ eligible env producer ∧ fileExists env w producer = true)
  ∧ ((generateIfNotExists env w producer replace).1.1 = true →
     (generateIfNotExists env w producer replace).2 = w).
Proof.
  assert (eligible env producer ∧ fileExists env w producer = true →
          (generateIfNotExists env w producer replace).1.1 = true
          ∧ (generateIfNotExists env w producer replace).2 = w) as Hready.
  { intros [He Hf]. unfold generateIfNotExists.
    rewrite (proj2 (eligible_test env producer) He), Hf.
    destruct (fileExists_kind env w producer Hf) as (f & -> & _). done. }
  split; [split|].
  - apply generateIfNotExists_true_inv.
  - intros H. apply (proj1 (Hready H)).
  - intros Ht. apply (proj2 (Hready (generateIfNotExists_true_inv _ _ _ _ Ht))).
Qed.

Lemma tagged_value : atoi (QStr.number 1) = 1.
Proof. reflexivity. Qed.

(** After a clip was switched to its ready proxy, the clip carries the
    marker, the stash holds the resource it had, [ProxyManager::resource]
    still answers with that resource, every other property is as it was,
    and a further call of [generateIfNotExists] does nothing. *)
Theorem generateIfNotExists_tagged (env : Env) (w : World) (producer : Producer)
    (replace : bool) (original : string) :
  (generateIfNotExists env w producer replace).1.1 = true →
  get producer "resource" = Some original →
  let tagged := (generateIfNotExists env w producer replace).1.2 in
  get_int tagged kIsProxyProperty = 1
  ∧ get tagged kOriginalResourceProperty = Some original
  ∧ resource tagged = original
  ∧ resource producer = original
  ∧ (∀ name, name ≠ kIsProxyProperty → name ≠ kOriginalResourceProperty →
       name ≠ "resource" → get tagged name = get producer name)
  ∧ is_valid tagged = is_valid producer
  ∧ (∀ w' replace',
       generateIfNotExists env w' tagged replace' = (false, tagged, w')).
Proof.
  intros Ht Hres tagged.
  destruct (generateIfNotExists_true_inv env w producer replace Ht) as [He Hf].
  destruct (fileExists_kind env w producer Hf) as (f & Hname & Hsvc).
  assert (∃ path,
            tagged = set (set (set_int producer kIsProxyProperty 1)
                            kOriginalResourceProperty (Some original))
                       "resource" (Some path)) as [path Etag].
  { subst tagged. unfold generateIfNotExists.
    rewrite (proj2 (eligible_test env producer) He), Hf, Hname.
    assert (get (set_int producer kIsProxyProperty 1) "resource" = Some original)
      as -> by (unfold get, set_int, set; simpl; by rewrite lookup_insert_ne).
    destruct (Qt.exists_ w _ f); eexists; reflexivity. }
  assert (get_int tagged kIsProxyProperty = 1) as Hmark.
  { rewrite Etag. unfold get_int, get, set_int, set. simpl.
    rewrite lookup_insert_ne, lookup_insert_ne, lookup_insert_eq by done.
    apply tagged_value. }
  assert (get tagged kOriginalResourceProperty = Some original) as Hstash.
  { rewrite Etag. unfold get, set_int, set. simpl.
    by rewrite lookup_insert_ne, lookup_insert_eq. }
  split; [done|]. split; [done|]. split; [|split; [|split; [|split]]].
  - unfold resource. rewrite Hmark, Hstash. simpl. done.
  - unfold resource. destruct He as (_ & _ & _ & ->). simpl.
    rewrite bool_decide_eq_false_2 by done. by rewrite Hres.
  - intros name N1 N2 N3. rewrite Etag. unfold get, set_int, set. simpl.
    by rewrite !lookup_insert_ne.
  - by rewrite Etag.
  - intros w' replace'. apply generateIfNotExists_not_eligible.
    intros (_ & _ & _ & H0). rewrite Hmark in H0. done.
Qed.

(** ** The pending marker *)

Lemma writable_inv (w : World) (path : string) :
  Qt.writable w path = true →
  (path ∉ denied w) ∧ fs w !! path ≠ Some Dir
  ∧ fs w !! Qt.parentPath path = Some Dir.
Proof.
  unfold Qt.writable. rewrite !andb_true_iff, !bool_decide_eq_true. tauto.
Qed.

Lemma touch_written (w : World) (fileName : string) :
  Qt.writable w fileName = true →
  fs (touch w fileName) = <[fileName := File 0]> (fs w).
Proof.
  intros Hw. unfold touch, Qt.openWrite. rewrite Hw. simpl.
  destruct (writable_inv w fileName Hw) as (Hd & _ & _).
  unfold Qt.resize, Qt.close. simpl.
  rewrite (bool_decide_eq_true_2 _ Hd), lookup_insert_eq. simpl.
  apply insert_insert_eq.
Qed.

Lemma touch_frame (w : World) (fileName path : string) :
  path ≠ fileName → fs (touch w fileName) !! path = fs w !! path.
Proof.
  intros Hne. unfold touch, Qt.openWrite, Qt.resize, Qt.close.
  destruct (Qt.writable w fileName); simpl;
    match goal with
    | |- context [if ?c then _ else _] => destruct c
    end; simpl; by rewrite ?lookup_insert_ne.
Qed.

Lemma touch_denied (w : World) (fileName : string) :
  denied (touch w fileName) = denied w.
Proof.
  unfold touch, Qt.openWrite, Qt.resize, Qt.close.
  destruct (Qt.writable w fileName); simpl;
    match goal with
    | |- context [if ?c then _ else _] => destruct c
    end; done.
Qed.

(** What [dir()] leaves behind: only the project's [proxies] folder can be
    new. *)
Lemma dir_frame (env : Env) (w : World) :
  denied (dir env w).2 = denied w
  ∧ (∀ path, path ≠ projectProxies env → fs (dir env w).2 !! path = fs w !! path).
Proof.
  unfold dir, projectProxies.
  destruct (negb (QStr.isEmpty (projectFolder env)) && _ && _); simpl; [|done].
  destruct (Qt.cd w (Qt.QDir (projectFolder env)) "proxies") as [[] d']; simpl; [done|].
  unfold Qt.mkdir.
  destruct (bool_decide _ && bool_decide _); simpl; [|done].
  split; [done|]. intros path Hne. by rewrite lookup_insert_ne.
Qed.

(** When the project's [proxies] folder exists or can be made, [dir()]
    answers with the configured folder or with that folder, which then
    exists. *)
Lemma dir_usable (env : Env) (w : World) :
  Qt.dirExists w (projectProxies env) = true
  ∨ ((projectProxies env ∉ denied w) ∧ fs w !! projectProxies env = None) →
  (dir env w).1 = Qt.QDir (proxyFolder (settings env))
  ∨ ((dir env w).1 = projectProxies env
     ∧ fs (dir env w).2 !! projectProxies env = Some Dir).
Proof.
  intros Hu. unfold dir. fold (projectProxies env).
  destruct (negb (QStr.isEmpty (projectFolder env)) && _ && _); simpl; [|by left].
  right. unfold Qt.cd. fold (projectProxies env).
  destruct (Qt.dirExists w (projectProxies env)) eqn:Hex; simpl.
  - split; [done|]. unfold Qt.dirExists in Hex. by apply bool_decide_eq_true in Hex.
  - destruct Hu as [?|[Hd Hn]]; [done|].
    unfold Qt.mkdir. fold (projectProxies env).
    rewrite (bool_decide_eq_true_2 _ Hd), (bool_decide_eq_true_2 _ Hn). simpl.
    unfold Qt.dirExists. simpl. rewrite lookup_insert_eq.
    rewrite bool_decide_eq_true_2 by done. simpl. done.
Qed.

(** A marker written into the folder [dir()] answered with is found by
    the probe of [fileExists] and [filePending]. *)
Lemma probe_after_touch (env : Env) (w : World) (name : string) (w' : World) :
  Qt.dirExists w (projectProxies env) = true
  ∨ ((projectProxies env ∉ denied w) ∧ fs w !! projectProxies env = None) →
  let fileName := Qt.filePath (dir env w).1 name in
  Qt.writable (dir env w).2 fileName = true →
  fs w' = fs (touch (dir env w).2 fileName) →
  probe env w' name = true.
Proof.
  intros Hu fileName Hw Hw'.
  destruct (writable_inv _ _ Hw) as (_ & Hf & _).
  rewrite touch_written in Hw' by done.
  unfold probe. fold (projectProxies env).
  destruct (dir_usable env w Hu) as [Ed | [Ed Hp]].
  - apply orb_true_iff. right. unfold Qt.exists_. rewrite <- Ed. fold fileName.
    rewrite Hw', lookup_insert_eq. by apply bool_decide_eq_true_2.
  - apply orb_true_iff. left. unfold Qt.cd. fold (projectProxies env).
    assert (fileName ≠ projectProxies env) as Hne by congruence.
    assert (Qt.dirExists w' (projectProxies env) = true) as ->.
    { unfold Qt.dirExists. rewrite Hw', lookup_insert_ne by done.
      by apply bool_decide_eq_true_2. }
    simpl. unfold Qt.exists_. rewrite <- Ed. fold fileName.
    rewrite Hw', lookup_insert_eq. by apply bool_decide_eq_true_2.
Qed.

(** Absent becomes pending: when the project's [proxies] folder exists or
    can be made, and the pending file can be opened for writing in the
    folder [dir()] answers with (the path is not barred, is not a
    directory, and the directory it lies in exists), the marker touched by
    a builder is what [filePending] looks for, for an avformat clip after
    [generateVideoProxy] and for a still image after
    [generateImageProxy]. *)
Theorem generated_is_pending (env : Env) (w : World) (producer : Producer)
    (fullRange : bool) (scanMode : ScanMode) (aspectRatio : QPoint) (replace : bool) :
  Qt.dirExists w (projectProxies env) = true
  ∨ ((projectProxies env ∉ denied w) ∧ fs w !! projectProxies env = None) →
  (let fileName :=
     Qt.filePath (dir env w).1 (getHash env producer +:+ kProxyPendingVideoExtension) in
   QStr.startsWith (fromCString (get producer "mlt_service")) "avformat" = true →
   Qt.writable (dir env w).2 fileName = true →
   filePending env
     (generateVideoProxy env w producer fullRange scanMode aspectRatio replace)
     producer = true)
  ∧ (let fileName :=
       Qt.filePath (dir env w).1 (getHash env producer +:+ kProxyPendingImageExtension) in
     QStr.startsWith (fromCString (get producer "mlt_service")) "avformat" = false →
     isValidImage producer = true →
     Qt.writable (dir env w).2 fileName = true →
     filePending env (generateImageProxy env w producer replace) producer = true).
Proof.
  intros Hu. split; intros fileName.
  - intros Hs Hw. unfold filePending, proxyFileName. rewrite Hs.
    apply (probe_after_touch env w _ _ Hu Hw).
    unfold generateVideoProxy. by destruct (dir env w).
  - intros Hs Hi Hw. unfold filePending, proxyFileName. rewrite Hs, Hi.
    apply (probe_after_touch env w _ _ Hu Hw).
    unfold generateImageProxy. by destruct (dir env w).
Qed.

(** The builders change no file but the pending marker and, at most, the
    project's [proxies] folder; they make no path unwritable and keep the
    jobs already queued. *)
Theorem builders_frame (env : Env) (w : World) (producer : Producer)
    (fullRange : bool) (scanMode : ScanMode) (aspectRatio : QPoint) (replace : bool) :
  (let w' := generateVideoProxy env w producer fullRange scanMode aspectRatio replace in
   (∀ path,
      path ≠ Qt.filePath (dir env w).1 (getHash env producer +:+ kProxyPendingVideoExtension) →
      path ≠ projectProxies env → fs w' !! path = fs w !! path)
   ∧ denied w' = denied w ∧ jobs w `prefix_of` jobs w')
  ∧ (let w' := generateImageProxy env w producer replace in
     (∀ path,
        path ≠ Qt.filePath (dir env w).1 (getHash env producer +:+ kProxyPendingImageExtension) →
        path ≠ projectProxies env → fs w' !! path = fs w !! path)
     ∧ denied w' = denied w ∧ jobs w `prefix_of` jobs w').
Proof.
  destruct (dir_frame env w) as [Hden Hfs].
  split; intros w'; subst w'.
  - destruct (generateVideoProxy_submits env w producer fullRange scanMode aspectRatio replace)
      as [job J].
    rewrite J. unfold generateVideoProxy.
    destruct (dir env w) as [d w1]. simpl in *.
    rewrite touch_denied. split; [|split; [done | by eexists]].
    intros path N1 N2. rewrite touch_frame by done. by apply Hfs.
  - destruct (generateImageProxy_submits env w producer replace) as [job J].
    rewrite J. unfold generateImageProxy.
    destruct (dir env w) as [d w1]. simpl in *.
    rewrite touch_denied. split; [|split; [done | by eexists]].
    intros path N1 N2. rewrite touch_frame by done. by apply Hfs.
Qed.

(** ** A marker outside the [proxies] folder *)

Lemma touch_no_dir (w : World) (fileName path : string) :
  fs (touch w fileName) !! path = Some Dir → fs w !! path = Some Dir.
Proof.
  destruct (decide (path = fileName)) as [->|Hne];
    [|by rewrite touch_frame].
  unfold touch, Qt.openWrite, Qt.resize, Qt.close.
  destruct (Qt.writable w fileName); simpl;
    match goal with
    | |- context [if ?c then _ else _] => destruct c
    end; simpl; rewrite ?lookup_insert_eq; done.
Qed.

(** [dir()] when the project's [proxies] folder is absent and cannot be
    made: the project folder itself, and no file changed. *)
Lemma dir_fallback (env : Env) (w : World) :
  projectFolder env ≠ "" →
  Qt.dirExists w (Qt.QDir (projectFolder env)) = true →
  proxyUseProjectFolder (settings env) = true →
  fs w !! projectProxies env = None → projectProxies env ∈ denied w →
  (dir env w).1 = Qt.QDir (projectFolder env) ∧ fs (dir env w).2 = fs w.
Proof.
  intros Hp Hd Hu Hn Hden. unfold dir.
  assert (QStr.isEmpty (projectFolder env) = false) as ->.
  { unfold QStr.isEmpty. destruct (projectFolder env); done. }
  rewrite Hd, Hu. simpl.
  unfold Qt.cd. fold (projectProxies env).
  assert (Qt.dirExists w (projectProxies env) = false) as ->.
  { unfold Qt.dirExists. apply bool_decide_eq_false_2. by rewrite Hn. }
  simpl. unfold Qt.mkdir. fold (projectProxies env).
  rewrite (bool_decide_eq_false_2 (projectProxies env ∉ denied w)) by tauto.
  simpl. done.
Qed.

(** A marker the probe cannot see: when the project folder is in use but
    its [proxies] folder neither exists nor can be made, [dir()] falls back
    on the project folder itself, and the marker [generateVideoProxy]
    touches there lies in neither place [filePending] looks at: the clip
    does not count as pending although its job was submitted. *)
Theorem marker_outside_proxies (env : Env) (w : World) (producer : Producer)
    (fullRange : bool) (scanMode : ScanMode) (aspectRatio : QPoint) (replace : bool) :
  projectFolder env ≠ "" →
  Qt.dirExists w (Qt.QDir (projectFolder env)) = true →
  proxyUseProjectFolder (settings env) = true →
  fs w !! projectProxies env = None → projectProxies env ∈ denied w →
  let name := getHash env producer +:+ kProxyPendingVideoExtension in
  QStr.startsWith (fromCString (get producer "mlt_service")) "avformat" = true →
  Qt.exists_ w (Qt.QDir (proxyFolder (settings env))) name = false →
  Qt.filePath (Qt.QDir (proxyFolder (settings env))) name
  ≠ Qt.filePath (Qt.QDir (projectFolder env)) name →
  let w' := generateVideoProxy env w producer fullRange scanMode aspectRatio replace in
  (dir env w).1 = Qt.QDir (projectFolder env)
  ∧ length (jobs w') = S (length (jobs w))
  ∧ filePending env w' producer = false.
Proof.
  intros Hp Hd Hu Hn Hden name Hs Hex Hne w'.
  destruct (dir_fallback env w Hp Hd Hu Hn Hden) as [Ed Efs].
  split; [done|]. split.
  { subst w'.
    destruct (generateVideoProxy_submits env w producer fullRange scanMode
                aspectRatio replace) as [job ->].
    rewrite length_app. simpl. lia. }
  assert (fs w' = fs (touch (dir env w).2 (Qt.filePath (dir env w).1 name))) as Hw'.
  { subst w'. unfold generateVideoProxy. by destruct (dir env w). }
  unfold filePending, proxyFileName. rewrite Hs. fold name.
  unfold probe. fold (projectProxies env).
  apply orb_false_iff. split.
  - unfold Qt.cd. fold (projectProxies env).
    assert (Qt.dirExists w' (projectProxies env) = false) as ->; [|done].
    unfold Qt.dirExists. apply bool_decide_eq_false_2. rewrite Hw'.
    intros H%touch_no_dir. rewrite Efs, Hn in H. done.
  - unfold Qt.exists_ in *. apply bool_decide_eq_false in Hex.
    apply bool_decide_eq_false_2.
    rewrite Hw', Ed, touch_frame, Efs by done. done.
Qed.

(** ** The jobs *)

(** The job of a builder works on the pending file that was touched: it is
    the job's name, the file the command writes and the file the post-job
    action promotes; with [replace] the action also carries the clip's
    resource and hash. *)
Theorem job_targets_marker (env : Env) (w : World) (producer : Producer)
    (fullRange : bool) (scanMode : ScanMode) (aspectRatio : QPoint) (replace : bool) :
  (∃ job ok,
     let fileName :=
       Qt.filePath (dir env w).1 (getHash env producer +:+ kProxyPendingVideoExtension) in
     markerThenJob w
       (generateVideoProxy env w producer fullRange scanMode aspectRatio replace)
       fileName ok job
     ∧ jobKind job = FfmpegJob false
     ∧ last (jobArgs job) = Some fileName
     ∧ postJobAction job
       = (if replace
          then ProxyReplacePostJobAction (resource producer) fileName (getHash env producer)
          else ProxyFinalizePostJobAction fileName))
  ∧ (∃ job ok,
       let fileName :=
         Qt.filePath (dir env w).1 (getHash env producer +:+ kProxyPendingImageExtension) in
       markerThenJob w (generateImageProxy env w producer replace) fileName ok job
       ∧ jobKind job = MeltJob 1 1
       ∧ "avformat:" +:+ fileName ∈ jobArgs job
       ∧ postJobAction job
         = (if replace
            then ProxyReplacePostJobAction (resource producer) fileName (getHash env producer)
            else ProxyFinalizePostJobAction fileName)).
Proof.
  split.
  - destruct (generateVideoProxy_effects env w producer fullRange scanMode aspectRatio replace)
      as [ok H].
    eexists _, ok. split; [exact H|]. simpl. split; [done|]. split; [|done].
    unfold videoArgs. by rewrite last_app_cons.
  - destruct (generateImageProxy_effects env w producer replace) as [ok H].
    eexists _, ok. split; [exact H|]. simpl. split; [done|]. split; [|done].
    unfold imageArgs. rewrite !elem_of_app, !elem_of_cons. tauto.
Qed.

(** ** The encoder *)

Lemma filter_absent (x : string) (l : list string) :
  x ∉ l → filter (λ a, a = x) l = [].
Proof.
  induction l as [|a l IH]; [done|].
  intros [Hne Hl]%not_elem_of_cons. rewrite filter_cons.
  rewrite decide_False by congruence. by apply IH.
Qed.

Lemma hasChar_number_c (n : Z) : QStr.hasChar "c" (QStr.number n) = false.
Proof.
  unfold QStr.number.
  assert (∀ d, QStr.hasChar "c" (NilEmpty.string_of_uint d) = false) as Hu.
  { induction d; simpl; done. }
  assert (∀ d, QStr.hasChar "c" (NilZero.string_of_uint d) = false) as Hz.
  { intros d. destruct d; try apply Hu. done. }
  destruct (Z.to_int n); simpl; by rewrite ?Hz.
Qed.

Lemma videoFilterArg_not_codec (env : Env) (fullRange : bool) (scanMode : ScanMode) :
  videoFilterArg env fullRange scanMode ≠ "-codec:v".
Proof.
  intros H.
  apply (f_equal (λ s, match s with String c _ => Some c | EmptyString => None end)) in H.
  destruct scanMode, fullRange; vm_compute in H; discriminate.
Qed.

Lemma aspect_not_codec (x y : Z) :
  QStr.number x +:+ ":" +:+ QStr.number y ≠ "-codec:v".
Proof.
  intros H. apply (f_equal (QStr.hasChar "c")) in H.
  rewrite !hasChar_append, !hasChar_number_c in H. done.
Qed.

(** The arguments in front of the encoder cascade, lines 92-156. *)
Lemma videoArgs_encoder (env : Env) (producer : Producer) (fullRange : bool)
    (scanMode : ScanMode) (aspectRatio : QPoint) (resource fileName : string) :
  resource ≠ "-codec:v" →
  ∃ front,
    ("-codec:v" ∉ front)
    ∧ videoArgs env producer fullRange scanMode aspectRatio resource fileName
      = ((let args := front ++ hardwareEncoderArgs env in
          if negb (bool_decide ("-codec:v" ∈ args))
          then args ++ ["-codec:v"; "libx264"; "-preset"; "veryfast"; "-crf"; "23"]
          else args) ++ ["-g"; "1"; "-bf"; "0"]) ++ ["-y"; fileName].
Proof.
  intros Hres. eexists. split; [|unfold videoArgs; reflexivity].
  pose proof (videoFilterArg_not_codec env fullRange scanMode) as Hvf.
  pose proof (aspect_not_codec (qx aspectRatio) (qy aspectRatio)) as Hasp.
  assert ("-codec:v" ∉ colorspaceArgs (get_int producer "meta.media.colorspace")
                          (get_int producer "meta.media.height")) as Hcol.
  { unfold colorspaceArgs. repeat case_decide;
      rewrite !not_elem_of_cons; repeat split; try done; apply not_elem_of_nil. }
  assert ("-codec:v" ∉ videoArgsFilter env producer fullRange scanMode resource) as Hfil.
  { unfold videoArgsFilter.
    destruct (bool_decide (get_int producer "video_index" < get_int producer "audio_index"));
      destruct fullRange; simpl;
      rewrite !not_elem_of_cons; repeat split; try done; try congruence;
      apply not_elem_of_nil. }
  destruct (negb (QPoint_isNull aspectRatio));
    rewrite !not_elem_of_app, !not_elem_of_cons; repeat split;
    try done; try congruence; apply not_elem_of_nil.
Qed.

Lemma hardwareEncoderArgs_cases (env : Env) :
  hardwareEncoderArgs env = []
  ∨ ("-codec:v" ∈ hardwareEncoderArgs env
     ∧ length (filter (λ a, a = "-codec:v") (hardwareEncoderArgs env)) = 1%nat
     ∧ proxyUseHardware (settings env) = true).
Proof.
  unfold hardwareEncoderArgs.
  destruct (proxyUseHardware (settings env)); [|by left].
  repeat (case_bool_decide; [right; split; [|split; [vm_compute; reflexivity | done]];
                             rewrite !elem_of_cons; tauto |]).
  by left.
Qed.

(** One encoder, always: unless the clip's resource or the pending file is
    literally named [-codec:v], the argument list names the video codec
    exactly once, whichever hardware encoders are offered; and with
    hardware encoding switched off the list ends with the software
    encoder's arguments, the key-frame arguments and the output file. *)
Theorem one_video_encoder (env : Env) (producer : Producer) (fullRange : bool)
    (scanMode : ScanMode) (aspectRatio : QPoint) (resource fileName : string) :
  resource ≠ "-codec:v" → fileName ≠ "-codec:v" →
  let args := videoArgs env producer fullRange scanMode aspectRatio resource fileName in
  length (filter (λ a, a = "-codec:v") args) = 1%nat
  ∧ (proxyUseHardware (settings env) = false →
     ∃ front,
       args = front ++ ["-codec:v"; "libx264"; "-preset"; "veryfast"; "-crf"; "23";
                        "-g"; "1"; "-bf"; "0"; "-y"; fileName]).
Proof.
  intros Hres Hfile args.
  destruct (videoArgs_encoder env producer fullRange scanMode aspectRatio
              resource fileName Hres) as (front & Hfront & E).
  subst args. rewrite E. clear E. simpl.
  assert (filter (λ a, a = "-codec:v") ["-y"; fileName] = []) as Hy.
  { apply filter_absent. rewrite !not_elem_of_cons.
    repeat split; try done; try congruence. apply not_elem_of_nil. }
  destruct (hardwareEncoderArgs_cases env) as [Hnil | (Hin & Hone & Hon)].
  - rewrite Hnil, app_nil_r.
    rewrite bool_decide_eq_false_2 by done. simpl. split.
    + rewrite !filter_app, (filter_absent _ front Hfront), Hy. reflexivity.
    + intros _. exists front. by rewrite <- !app_assoc.
  - rewrite bool_decide_eq_true_2 by (apply elem_of_app; by right). simpl. split.
    + rewrite !filter_app, (filter_absent _ front Hfront), Hy, !length_app, Hone.
      reflexivity.
    + intros Hoff. congruence.
Qed.

(** ** The target resolution *)

(** Both builders scale to the preview scale, or to 540 lines when none is
    set: the filter expression of the video job is a deinterlace stage (or
    none) followed by the scale stage for that height, and the image job
    asks for that height. *)
Theorem resolution_of_builders (env : Env) (producer : Producer)
    (fullRange : bool) (scanMode : ScanMode) (resource fileName : string) :
  (playerPreviewScale (settings env) = 0 → resolution env = 540)
  ∧ (playerPreviewScale (settings env) ≠ 0 →
     resolution env = playerPreviewScale (settings env))
  ∧ (∃ stage,
       videoFilterArg env fullRange scanMode = stage +:+ scaleStage env fullRange
       ∧ stage ∈ ["yadif=deint=interlaced,"; "yadif=parity=tff,";
                  "yadif=parity=bff,"; ""])
  ∧ "height=" +:+ QStr.number (resolution env)
    ∈ imageArgs env producer resource fileName.
Proof.
  split; [|split; [|split]].
  - intros H. unfold resolution. by rewrite H.
  - intros H. unfold resolution. by rewrite bool_decide_eq_true_2.
  - unfold videoFilterArg, videoFilters, scaleStage.
    exists (match scanMode with
            | Automatic => "yadif=deint=interlaced,"
            | Progressive => ""
            | InterlacedTopFieldFirst => "yadif=parity=tff,"
            | InterlacedBottomFieldFirst => "yadif=parity=bff,"
            end).
    destruct scanMode, fullRange; (split; [reflexivity|]);
      rewrite !elem_of_cons; tauto.
  - unfold imageArgs. rewrite !elem_of_app, !elem_of_cons. tauto.
Qed.

(** ** The scan of a whole project *)

Lemma parserProducers_app (store : gmap nat Producer) (vs1 vs2 : list Visit) :
  parserProducers store (vs1 ++ vs2)
  = parserProducers store vs1 ++ parserProducers store vs2.
Proof.
  unfold parserProducers. rewrite fold_left_app.
  generalize (fold_left (on_start_producer store) vs1 []). 
  induction vs2 as [|v vs2 IH] using rev_ind; intros acc.
  - simpl. by rewrite app_nil_r.
  - rewrite !fold_left_app. simpl. rewrite IH. unfold on_start_producer.
    destruct (negb _); [by rewrite app_assoc | done].
Qed.

(** The clips handed to the loop: those visited under a parent that does
    not carry the marker. *)
Lemma parserProducers_elem (store : gmap nat Producer) (visits : list Visit)
    (h : nat) :
  h ∈ parserProducers store visits
  ↔ ∃ v, v ∈ visits ∧ visitedClip v = h
         ∧ handle_get_int store (visitedParent v) kIsProxyProperty = 0.
Proof.
  induction visits as [|v vs IH] using rev_ind.
  - split; [intros H; by apply elem_of_nil in H | intros (v & H & _); by apply elem_of_nil in H].
  - rewrite parserProducers_app, elem_of_app, IH.
    unfold parserProducers at 1. simpl. unfold on_start_producer. simpl.
    split.
    + intros [(v' & Hin & E & Hp) | Hin].
      * exists v'. rewrite elem_of_app. auto.
      * destruct (bool_decide (handle_get_int store (visitedParent v) kIsProxyProperty ≠ 0))
          eqn:Hb; simpl in Hin; [by apply elem_of_nil in Hin|].
        apply list_elem_of_singleton in Hin. apply bool_decide_eq_false in Hb.
        exists v. rewrite elem_of_app, list_elem_of_singleton.
        split; [auto|]. split; [done|]. lia.
    + intros (v' & [Hin | ->%list_elem_of_singleton]%elem_of_app & E & Hp).
      * left. eauto.
      * right. rewrite bool_decide_eq_false_2 by lia. simpl.
        apply list_elem_of_singleton. done.
Qed.

Lemma step_store (env : Env) (st : World * gmap nat Producer) (h h' : nat) :
  (h' ≠ h → (generateIfNotExistsAll_step env st h).2 !! h' = st.2 !! h')
  ∧ (is_Some ((generateIfNotExistsAll_step env st h).2 !! h') ↔ is_Some (st.2 !! h'))
  ∧ (is_Some (st.2 !! h) → taggedIn (generateIfNotExistsAll_step env st h).2 h).
Proof.
  unfold generateIfNotExistsAll_step.
  destruct (st.2 !! h) as [clip|] eqn:E.
  - destruct (generateIfNotExists env st.1 clip false) as [[b clip'] w'] eqn:G. simpl.
    split; [|split].
    + intros Hne. by rewrite lookup_insert_ne.
    + destruct (decide (h' = h)) as [->|Hne].
      * rewrite lookup_insert_eq. split; eauto.
      * by rewrite lookup_insert_ne.
    + intros _. eexists. rewrite lookup_insert_eq. split; [done|].
      unfold get_int, get, set_int, set. simpl. rewrite lookup_insert_eq.
      apply tagged_value.
  - split; [done|]. split; [done|]. intros [? ?]. done.
Qed.

Lemma step_keeps_tag (env : Env) (st : World * gmap nat Producer) (h h' : nat) :
  taggedIn st.2 h' → taggedIn (generateIfNotExistsAll_step env st h).2 h'.
Proof.
  intros Ht. destruct (decide (h' = h)) as [->|Hne].
  - apply (proj2 (proj2 (step_store env st h h))).
    destruct Ht as (p & E & _). rewrite E. eauto.
  - unfold taggedIn. by rewrite (proj1 (step_store env st h h')).
Qed.

Lemma steps_keep_tag (env : Env) (l : list nat) (st : World * gmap nat Producer)
    (h : nat) :
  taggedIn st.2 h → taggedIn (fold_left (generateIfNotExistsAll_step env) l st).2 h.
Proof.
  revert st. induction l as [|a l IH]; intros st Ht; [done|].
  simpl. apply IH. by apply step_keeps_tag.
Qed.

Lemma steps_tag (env : Env) (l : list nat) (st : World * gmap nat Producer)
    (h : nat) :
  h ∈ l → is_Some (st.2 !! h) →
  taggedIn (fold_left (generateIfNotExistsAll_step env) l st).2 h.
Proof.
  revert st. induction l as [|a l IH]; intros st Hin Hs; [by apply elem_of_nil in Hin|].
  simpl. destruct (decide (h = a)) as [->|Hne].
  - apply steps_keep_tag. by apply (proj2 (proj2 (step_store env st a a))).
  - apply elem_of_cons in Hin as [?|Hin]; [done|].
    apply IH; [done|]. by apply (proj1 (proj2 (step_store env st a h))).
Qed.

Lemma steps_frame (env : Env) (l : list nat) (st : World * gmap nat Producer)
    (h : nat) :
  h ∉ l → (fold_left (generateIfNotExistsAll_step env) l st).2 !! h = st.2 !! h.
Proof.
  revert st. induction l as [|a l IH]; intros st Hn; [done|].
  apply not_elem_of_cons in Hn as [Hne Hn]. simpl.
  rewrite IH by done. by apply (proj1 (step_store env st a h)).
Qed.

(** Every clip the scan reaches under an untagged parent carries the
    marker afterwards, whether or not a job was submitted for it; every
    other clip of the store is as it was. *)
Theorem generateIfNotExistsAll_tags (env : Env) (w : World)
    (store : gmap nat Producer) (visits : list Visit) :
  let store' := (generateIfNotExistsAll env w store visits).2 in
  (∀ v, v ∈ visits →
        handle_get_int store (visitedParent v) kIsProxyProperty = 0 →
        is_Some (store !! visitedClip v) → taggedIn store' (visitedClip v))
  ∧ (∀ h, (∀ v, v ∈ visits → visitedClip v = h →
                handle_get_int store (visitedParent v) kIsProxyProperty ≠ 0) →
          store' !! h = store !! h).
Proof.
  intros store'. subst store'. unfold generateIfNotExistsAll. split.
  - intros v Hin Hp Hs. apply steps_tag; [|done].
    apply parserProducers_elem. eauto.
  - intros h Hall. rewrite steps_frame; [done|].
    intros (v & Hin & E & Hp)%parserProducers_elem. by apply (Hall v).
Qed.

Lemma generateIfNotExists_jobs (env : Env) (w : World) (producer : Producer) :
  ∃ js,
    jobs (generateIfNotExists env w producer false).2 = jobs w ++ js
    ∧ (length js ≤ 1)%nat ∧ Forall finalizes js.
Proof.
  assert (∃ js : list Job, jobs w = jobs w ++ js ∧ (length js ≤ 1)%nat
                           ∧ Forall finalizes js) as Hnone.
  { exists []. rewrite app_nil_r. repeat split; [simpl; lia | constructor]. }
  unfold generateIfNotExists.
  destruct (_ && _ && _ && _); [|exact Hnone].
  destruct (fileExists env w producer).
  { by destruct (proxyFileName env producer _ _). }
  destruct (negb (filePending env w producer)); [|exact Hnone].
  destruct (QStr.startsWith _ "avformat").
  - destruct (_ && _); [|exact Hnone]. simpl.
    destruct (generateVideoProxy_job env w (get_frame env producer)
                (fullRange env (get_frame env producer)) Automatic
                {| qx := 0; qy := 0 |} false) as [f J].
    eexists [_]. split; [exact J|]. split; [done|]. by repeat constructor.
  - destruct (isValidImage producer); [|exact Hnone].
    destruct (_ && _); [|exact Hnone]. simpl.
    destruct (generateImageProxy_effects env w (get_frame env producer) false)
      as (ok & made & ok' & _ & _ & J & _).
    eexists [_]. split; [exact J|]. split; [done|]. by repeat constructor.
Qed.

Lemma steps_jobs (env : Env) (l : list nat) (st : World * gmap nat Producer) :
  ∃ js,
    jobs (fold_left (generateIfNotExistsAll_step env) l st).1 = jobs st.1 ++ js
    ∧ (length js ≤ length l)%nat ∧ Forall finalizes js.
Proof.
  revert st. induction l as [|h l IH]; intros st.
  - exists []. rewrite app_nil_r. repeat split; [done | constructor].
  - simpl. destruct (IH (generateIfNotExistsAll_step env st h)) as (js2 & E2 & L2 & F2).
    assert (∃ js1, jobs (generateIfNotExistsAll_step env st h).1 = jobs st.1 ++ js1
                   ∧ (length js1 ≤ 1)%nat ∧ Forall finalizes js1)
      as (js1 & E1 & L1 & F1).
    { unfold generateIfNotExistsAll_step. destruct (st.2 !! h) as [clip|].
      - destruct (generateIfNotExists_jobs env st.1 clip) as (js & E & L & F).
        destruct (generateIfNotExists env st.1 clip false) as [[b c] w']. simpl in *.
        eauto.
      - exists []. rewrite app_nil_r. repeat split; [simpl; lia | constructor]. }
    exists (js1 ++ js2). rewrite E2, E1, <- app_assoc, length_app.
    repeat split; [lia | by apply Forall_app].
Qed.

Lemma parserProducers_length (store : gmap nat Producer) (visits : list Visit) :
  (length (parserProducers store visits) ≤ length visits)%nat.
Proof.
  induction visits as [|v vs IH] using rev_ind; [done|].
  rewrite parserProducers_app, !length_app. unfold parserProducers at 2. simpl.
  unfold on_start_producer. destruct (negb _); simpl; lia.
Qed.

(** The scan only ever submits jobs that promote their pending file
    without touching the clip, at most one for each visit, and keeps the
    jobs already queued. *)
Theorem generateIfNotExistsAll_jobs (env : Env) (w : World)
    (store : gmap nat Producer) (visits : list Visit) :
  ∃ js,
    jobs (generateIfNotExistsAll env w store visits).1 = jobs w ++ js
    ∧ (length js ≤ length visits)%nat
    ∧ Forall finalizes js.
Proof.
  unfold generateIfNotExistsAll.
  destruct (steps_jobs env (parserProducers store visits) (w, store))
    as (js & E & L & F).
  exists js. split; [done|]. split; [|done].
  pose proof (parserProducers_length store visits). lia.
Qed.

(** A clip that the traversal reaches a second time is handled once: the
    second visit finds the marker set by the first and leaves the files,
    the queue and the log as they are. *)
Theorem generateIfNotExistsAll_once (env : Env) (w : World)
    (store : gmap nat Producer) (visits : list Visit) (v : Visit) :
  (∃ v1, v1 ∈ visits ∧ visitedClip v1 = visitedClip v
         ∧ handle_get_int store (visitedParent v1) kIsProxyProperty = 0) →
  is_Some (store !! visitedClip v) →
  (generateIfNotExistsAll env w store (visits ++ [v])).1
  = (generateIfNotExistsAll env w store visits).1.
Proof.
  intros Hseen Hs. unfold generateIfNotExistsAll.
  rewrite parserProducers_app, fold_left_app.
  set (st := fold_left (generateIfNotExistsAll_step env)
               (parserProducers store visits) (w, store)).
  assert (taggedIn st.2 (visitedClip v)) as (p & Ep & Hp).
  { apply steps_tag; [|done]. apply parserProducers_elem.
    destruct Hseen as (v1 & ? & ? & ?). eauto. }
  unfold parserProducers. simpl. unfold on_start_producer.
  destruct (negb _); [|done]. simpl.
  unfold generateIfNotExistsAll_step. rewrite Ep.
  rewrite generateIfNotExists_not_eligible; [done|].
  intros (_ & _ & _ & H0). rewrite Hp in H0. done.
Qed.

(** ** The source of a proxy *)

(** A proxy is always made from the original: for a clip that carries the
    marker and a stash, the input of the video job and the first producer
    argument of the image job are the stashed resource, not the proxy the
    clip points at; and the label of either job is the translation of
    [Make proxy for %1] with the base name of the original in the place of
    its lowest place marker, which is [Make proxy for] and that name when
    no translation is installed. *)
Theorem proxy_made_from_original (env : Env) (w : World) (producer : Producer)
    (fullRange : bool) (scanMode : ScanMode) (aspectRatio : QPoint) (replace : bool)
    (original : string) :
  get_int producer kIsProxyProperty ≠ 0 →
  get producer kOriginalResourceProperty = Some original →
  (∃ job rest,
     jobs (generateVideoProxy env w producer fullRange scanMode aspectRatio replace)
       = jobs w ++ [job]
     ∧ jobArgs job = "-loglevel" :: "verbose" :: "-i" :: original :: rest
     ∧ jobLabel job
       = QStr.arg (tr env "Make proxy for %1") (baseName env original)
     ∧ (tr env "Make proxy for %1" = "Make proxy for %1" →
        jobLabel job = "Make proxy for " +:+ baseName env original))
  ∧ (∃ job rest,
       jobs (generateImageProxy env w producer replace) = jobs w ++ [job]
       ∧ jobArgs job = "-verbose" :: "-profile" :: "square_pal" :: original :: rest
       ∧ jobLabel job
         = QStr.arg (tr env "Make proxy for %1") (baseName env original)
       ∧ (tr env "Make proxy for %1" = "Make proxy for %1" →
          jobLabel job = "Make proxy for " +:+ baseName env original)).
Proof.
  intros Hm Hs.
  assert (resource producer = original) as Hres.
  { unfold resource. rewrite Hs, (bool_decide_eq_true_2 _ Hm). done. }
  assert (tr env "Make proxy for %1" = "Make proxy for %1" →
          jobLabelFor env original = "Make proxy for " +:+ baseName env original)
    as Hplain.
  { intros Ht. unfold jobLabelFor. rewrite Ht. apply arg_label. }
  split.
  - destruct (generateVideoProxy_job env w producer fullRange scanMode aspectRatio replace)
      as [f J].
    destruct (videoArgs_colorspace env producer fullRange scanMode aspectRatio original f)
      as [rest A].
    assert (∃ rest', videoArgs env producer fullRange scanMode aspectRatio original f
                     = "-loglevel" :: "verbose" :: "-i" :: original :: rest')
      as [rest' A'].
    { rewrite A. unfold videoArgsFilter.
      destruct (bool_decide _), fullRange; simpl; eexists; reflexivity. }
    eexists _, rest'. split; [exact J|]. simpl. rewrite Hres.
    split; [exact A' | split; [done | exact Hplain]].
  - destruct (generateImageProxy_effects env w producer replace)
      as (ok & made & ok' & _ & _ & J & _).
    eexists _, _. split; [exact J|]. simpl. rewrite Hres.
    split; [| split; [done | exact Hplain]].
    unfold imageArgs. simpl. reflexivity.
Qed.

(** ** Instances *)


(** The time-remapped clip at double speed under root [/a/]; and what
    the composition makes of a speed that is itself a place marker. *)
Lemma timewarp_resource_composed_witness :
  kIsProxyProperty ∈ x_timewarp_scope.*1
  ∧ "resource" ∈ x_timewarp_scope.*1
  ∧ lastValue kOriginalResourceProperty x_timewarp_scope = Some "/a/b/c.mov"
  ∧ "/a/b/c.mov" ≠ ""
  ∧ lastValue "mlt_service" x_timewarp_scope = Some "timewarp"
  ∧ QStr.hasChar "%" "2" = false
  ∧ (∃ before after,
       rewriteProperties "/a/" x_timewarp_scope
       = before ++ ("resource", "2:b/c.mov") :: after
       ∧ "resource" ∉ before.*1)
  ∧ QStr.arg (QStr.arg "%1:%2" "%1") "b/c.mov" = "b/c.mov:%2".
Proof.
  assert (kIsProxyProperty ∈ x_timewarp_scope.*1) as H1 by by_evaluation.
  assert ("resource" ∈ x_timewarp_scope.*1) as H2 by by_evaluation.
  assert ("/a/b/c.mov" ≠ "") as H4 by by_evaluation.
  split; [exact H1 | split; [exact H2 | split; [reflexivity | split; [exact H4 |
    split; [reflexivity | split; [reflexivity | split; [| reflexivity]]]]]]].
  destruct (timewarp_resource_composed "/a/" x_timewarp_scope "/a/b/c.mov"
              H1 H2 eq_refl H4 eq_refl)
    as (before & value & after & E & Hb & _ & Hv).
  exists before, after. split; [| exact Hb].
  exact (eq_trans E (f_equal (λ x, before ++ ("resource", x) :: after) (Hv eq_refl))).
Defined.

(** A time-remapped proxy scope without a stash under root [/cache/]. *)
Lemma resource_without_stash_witness :
  kIsProxyProperty ∈ (x_unstashed ++ ("resource", "/cache/H.mp4") :: []).*1
  ∧ (kOriginalResourceProperty
       ∉ (x_unstashed ++ ("resource", "/cache/H.mp4") :: []).*1)
  ∧ ("resource" ∉ x_unstashed.*1)
  ∧ "/cache/H.mp4" ≠ ""
  ∧ default "" (lastValue "mlt_service"
                  (x_unstashed ++ ("resource", "/cache/H.mp4") :: [])) = "timewarp"
  ∧ ∃ before after,
      rewriteProperties "/cache/" (x_unstashed ++ ("resource", "/cache/H.mp4") :: [])
      = before ++ ("resource", "2:H.mp4") :: after
      ∧ "resource" ∉ before.*1.
Proof.
  assert (kIsProxyProperty
            ∈ (x_unstashed ++ ("resource", "/cache/H.mp4") :: []).*1) as H1
    by by_evaluation.
  assert (kOriginalResourceProperty
            ∉ (x_unstashed ++ ("resource", "/cache/H.mp4") :: []).*1) as H2
    by by_evaluation.
  assert ("resource" ∉ x_unstashed.*1) as H3 by by_evaluation.
  assert ("/cache/H.mp4" ≠ "") as H4 by by_evaluation.
  split; [exact H1 | split; [exact H2 | split; [exact H3 | split; [exact H4 |
    split; [reflexivity |]]]]].
  destruct (resource_without_stash "/cache/" x_unstashed [] "/cache/H.mp4"
              H1 H2 H3 H4)
    as (before & value & after & E & Hb & _ & Hv).
  exists before, after. split; [| exact Hb].
  exact (eq_trans E (f_equal (λ x, before ++ ("resource", x) :: after)
                       (proj2 (Hv eq_refl) eq_refl))).
Defined.

(** [warp_resource] on both sides of [resource] under root [/a/]. *)
Lemma warp_resource_by_position_witness :
  kIsProxyProperty ∈ (x_warp_before ++ ("resource", "1:/cache/H.mp4") :: x_warp_middle).*1
  ∧ lastValue kOriginalResourceProperty
      (x_warp_before ++ ("resource", "1:/cache/H.mp4") :: x_warp_middle)
    = Some "/a/b/c.mov"
  ∧ "/a/b/c.mov" ≠ ""
  ∧ ("resource" ∉ x_warp_before.*1)
  ∧ ("resource" ∉ x_warp_middle.*1)
  ∧ ∃ before' value middle',
      rewriteProperties "/a/"
        (x_warp_before ++ ("resource", "1:/cache/H.mp4") :: x_warp_middle)
      = before' ++ ("resource", value) :: middle'
      ∧ (∀ x, ("warp_resource", x) ∈ before' → x = "/a/b/c.mov")
      ∧ ("warp_resource" ∈ x_warp_before.*1 → ("warp_resource", "/a/b/c.mov") ∈ before')
      ∧ (∀ x, ("warp_resource", x) ∈ middle' → x = "b/c.mov")
      ∧ ("warp_resource" ∈ x_warp_middle.*1 → ("warp_resource", "b/c.mov") ∈ middle').
Proof.
  assert (kIsProxyProperty
            ∈ (x_warp_before ++ ("resource", "1:/cache/H.mp4") :: x_warp_middle).*1)
    as H1 by by_evaluation.
  assert ("/a/b/c.mov" ≠ "") as H3 by by_evaluation.
  assert ("resource" ∉ x_warp_before.*1) as H4 by by_evaluation.
  assert ("resource" ∉ x_warp_middle.*1) as H5 by by_evaluation.
  split; [exact H1 | split; [reflexivity | split; [exact H3 | split; [exact H4 |
    split; [exact H5 |]]]]].
  exact (warp_resource_by_position "/a/" x_warp_before x_warp_middle
           "1:/cache/H.mp4" "/a/b/c.mov" H1 eq_refl H3 H4 H5).
Defined.

(** The second producer of a document is rewritten on its own. *)
Lemma filterTokens_after_flush_witness :
  flushOps (EndElement "producer") = Some [WEndElement]
  ∧ newXml (filterTokens "/a/"
              (x_two_producers ++ EndElement "producer" :: x_second_producer))
    = newXml (filterTokens "/a/" (x_two_producers ++ [EndElement "producer"]))
        ++ newXml (filterFrom "/a/"
                     {| properties := []; isPropertyElement := true; newXml := [] |}
                     x_second_producer).
Proof.
  split; [reflexivity|].
  exact (filterTokens_after_flush "/a/" x_two_producers x_second_producer
           (EndElement "producer") [WEndElement] eq_refl).
Defined.

(** A document whose root element is a property. *)
Lemma properties_need_flush_witness :
  Forall (λ t, flushOps t = None) x_property_root
  ∧ writtenProperties (newXml (filterTokens "" x_property_root)) = []
  ∧ properties (filterTokens "" x_property_root) = [("resource", "/a/b/c.mov")].
Proof.
  assert (Forall (λ t, flushOps t = None) x_property_root) as H
    by (repeat constructor).
  split; [exact H|].
  exact (properties_need_flush "" x_property_root H).
Defined.

(** Proxies switched off. *)
Lemma generateIfNotExists_skips_witness :
  ¬ eligible (x_env false) x_clip
  ∧ generateIfNotExists (x_env false) x_world_empty x_clip true
    = (false, x_clip, x_world_empty).
Proof.
  assert (¬ eligible (x_env false) x_clip) as H.
  { intros [E _]. vm_compute in E. discriminate E. }
  split; [exact H|].
  exact (generateIfNotExists_skips (x_env false) x_world_empty x_clip true
           (or_introl H)).
Defined.

(** A pending marker in the global folder. *)
Lemma generateIfNotExists_pending_witness :
  fileExists (x_env true) x_world_pending x_clip = false
  ∧ filePending (x_env true) x_world_pending x_clip = true
  ∧ generateIfNotExists (x_env true) x_world_pending x_clip false
    = (false, x_clip, x_world_pending).
Proof.
  assert (fileExists (x_env true) x_world_pending x_clip = false) as H1
    by (vm_compute; reflexivity).
  assert (filePending (x_env true) x_world_pending x_clip = true) as H2
    by (vm_compute; reflexivity).
  split; [exact H1 | split; [exact H2 |]].
  exact (generateIfNotExists_pending (x_env true) x_world_pending x_clip false H1 H2).
Defined.

(** A ready proxy in the global folder. *)
Lemma generateIfNotExists_tagged_witness :
  (generateIfNotExists (x_env true) x_world_ready x_clip false).1.1 = true
  ∧ get x_clip "resource" = Some "/media/a.mov"
  ∧ resource (generateIfNotExists (x_env true) x_world_ready x_clip false).1.2
    = "/media/a.mov".
Proof.
  assert ((generateIfNotExists (x_env true) x_world_ready x_clip false).1.1 = true)
    as H1 by (vm_compute; reflexivity).
  assert (get x_clip "resource" = Some "/media/a.mov") as H2
    by (vm_compute; reflexivity).
  split; [exact H1 | split; [exact H2 |]].
  exact (proj1 (proj2 (proj2 (generateIfNotExists_tagged (x_env true) x_world_ready
                                x_clip false "/media/a.mov" H1 H2)))).
Defined.

(** The project's [proxies] folder is made, and the marker is found. *)
Lemma generated_is_pending_witness :
  (Qt.dirExists x_world_empty (projectProxies (x_env true)) = true
   ∨ ((projectProxies (x_env true) ∉ denied x_world_empty)
      ∧ fs x_world_empty !! projectProxies (x_env true) = None))
  ∧ QStr.startsWith (fromCString (get x_clip "mlt_service")) "avformat" = true
  ∧ Qt.writable (dir (x_env true) x_world_empty).2 "/proj/proxies/H.pending.mp4" = true
  ∧ filePending (x_env true)
      (generateVideoProxy (x_env true) x_world_empty x_clip false Automatic
         {| qx := 0; qy := 0 |} false)
      x_clip = true.
Proof.
  assert (Qt.dirExists x_world_empty (projectProxies (x_env true)) = true
          ∨ ((projectProxies (x_env true) ∉ denied x_world_empty)
             ∧ fs x_world_empty !! projectProxies (x_env true) = None)) as H1.
  { right. split; [by_evaluation | vm_compute; reflexivity]. }
  assert (Qt.writable (dir (x_env true) x_world_empty).2 "/proj/proxies/H.pending.mp4"
          = true) as H3 by (vm_compute; reflexivity).
  split; [exact H1 | split; [reflexivity | split; [exact H3 |]]].
  exact (proj1 (generated_is_pending (x_env true) x_world_empty x_clip false Automatic
                  {| qx := 0; qy := 0 |} false H1) eq_refl H3).
Defined.

(** The arguments for the full-HD clip with software encoding. *)
Lemma one_video_encoder_witness :
  "/media/a.mov" ≠ "-codec:v"
  ∧ "/cache/H.pending.mp4" ≠ "-codec:v"
  ∧ length (filter (λ a, a = "-codec:v")
              (videoArgs (x_env true) x_clip false Automatic {| qx := 0; qy := 0 |}
                 "/media/a.mov" "/cache/H.pending.mp4")) = 1%nat.
Proof.
  assert ("/media/a.mov" ≠ "-codec:v") as H1 by by_evaluation.
  assert ("/cache/H.pending.mp4" ≠ "-codec:v") as H2 by by_evaluation.
  split; [exact H1 | split; [exact H2 |]].
  exact (proj1 (one_video_encoder (x_env true) x_clip false Automatic
                  {| qx := 0; qy := 0 |} "/media/a.mov" "/cache/H.pending.mp4" H1 H2)).
Defined.

(** A clip already a proxy, regenerated. *)
Lemma proxy_made_from_original_witness :
  get_int (set (set_int x_clip kIsProxyProperty 1) kOriginalResourceProperty
             (Some "/media/a.mov")) kIsProxyProperty ≠ 0
  ∧ get (set (set_int x_clip kIsProxyProperty 1) kOriginalResourceProperty
           (Some "/media/a.mov")) kOriginalResourceProperty = Some "/media/a.mov"
  ∧ ∃ job rest,
      jobs (generateImageProxy (x_env true) x_world_empty
              (set (set_int x_clip kIsProxyProperty 1) kOriginalResourceProperty
                 (Some "/media/a.mov")) true)
        = jobs x_world_empty ++ [job]
      ∧ jobArgs job = "-verbose" :: "-profile" :: "square_pal" :: "/media/a.mov" :: rest
      ∧ jobLabel job = "Make proxy for /media/a.mov".
Proof.
  assert (get_int (set (set_int x_clip kIsProxyProperty 1) kOriginalResourceProperty
                     (Some "/media/a.mov")) kIsProxyProperty ≠ 0) as H1
    by (vm_compute; discriminate).
  split; [exact H1 | split; [vm_compute; reflexivity |]].
  destruct (proj2 (proxy_made_from_original (x_env true) x_world_empty _ false Automatic
                     {| qx := 0; qy := 0 |} true "/media/a.mov" H1 eq_refl))
    as (job & rest & J & A & _ & L).
  exists job, rest. split; [exact J | split; [exact A | exact (L eq_refl)]].
Defined.

(** One clip used twice in a playlist. *)
Lemma generateIfNotExistsAll_once_witness :
  (∃ v1, v1 ∈ x_visits
         ∧ visitedClip v1 = visitedClip {| visitedClip := 0%nat; visitedParent := 0%nat |}
         ∧ handle_get_int x_store (visitedParent v1) kIsProxyProperty = 0)
  ∧ is_Some (x_store !! 0%nat)
  ∧ (generateIfNotExistsAll (x_env true) x_world_empty x_store
       (x_visits ++ [{| visitedClip := 0%nat; visitedParent := 0%nat |}])).1
    = (generateIfNotExistsAll (x_env true) x_world_empty x_store x_visits).1.
Proof.
  assert (∃ v1, v1 ∈ x_visits
                ∧ visitedClip v1
                  = visitedClip {| visitedClip := 0%nat; visitedParent := 0%nat |}
                ∧ handle_get_int x_store (visitedParent v1) kIsProxyProperty = 0) as H1.
  { exists {| visitedClip := 0%nat; visitedParent := 0%nat |}.
    split; [apply elem_of_cons; left; reflexivity |].
    split; [reflexivity | vm_compute; reflexivity]. }
  assert (is_Some (x_store !! 0%nat)) as H2 by (vm_compute; eexists; reflexivity).
  split; [exact H1 | split; [exact H2 |]].
  exact (generateIfNotExistsAll_once (x_env true) x_world_empty x_store x_visits
           {| visitedClip := 0%nat; visitedParent := 0%nat |} H1 H2).
Defined.

(** Root [/a] without a slash: [/axb.mov] loses the [x] as well. *)
Lemma relativize_root_without_slash_witness :
  "/a" ≠ "" ∧ QStr.endsWith "/a" "/" = false
  ∧ relativize "/a" ("/a" +:+ String "x" "b.mov") = "b.mov"
  ∧ relativize "/a" "/a" = "".
Proof.
  assert ("/a" ≠ "") as H1 by by_evaluation.
  assert (QStr.endsWith "/a" "/" = false) as H2 by reflexivity.
  split; [exact H1 | split; [exact H2 |]].
  split.
  - exact (proj1 (proj1 (relativize_root_without_slash "/a") H1 H2) "x"%char "b.mov").
  - exact (proj2 (proj1 (relativize_root_without_slash "/a") H1 H2)).
Defined.

(** The ready proxy in the global folder: true, and the world as it was. *)
Lemma generateIfNotExists_true_witness :
  (generateIfNotExists (x_env true) x_world_ready x_clip false).1.1 = true
  ∧ eligible (x_env true) x_clip
  ∧ fileExists (x_env true) x_world_ready x_clip = true
  ∧ (generateIfNotExists (x_env true) x_world_ready x_clip false).2 = x_world_ready.
Proof.
  assert ((generateIfNotExists (x_env true) x_world_ready x_clip false).1.1 = true)
    as H1 by (vm_compute; reflexivity).
  split; [exact H1|].
  split; [exact (proj1 (proj1 (proj1 (generateIfNotExists_true (x_env true)
                                        x_world_ready x_clip false)) H1)) |].
  split; [exact (proj2 (proj1 (proj1 (generateIfNotExists_true (x_env true)
                                        x_world_ready x_clip false)) H1)) |].
  exact (proj2 (generateIfNotExists_true (x_env true) x_world_ready x_clip false) H1).
Defined.

(** The clip of the one-clip playlist carries the marker after the scan. *)
Lemma generateIfNotExistsAll_tags_witness :
  {| visitedClip := 0%nat; visitedParent := 0%nat |} ∈ x_visits
  ∧ handle_get_int x_store 0%nat kIsProxyProperty = 0
  ∧ is_Some (x_store !! 0%nat)
  ∧ taggedIn (generateIfNotExistsAll (x_env true) x_world_empty x_store x_visits).2
      0%nat.
Proof.
  assert ({| visitedClip := 0%nat; visitedParent := 0%nat |} ∈ x_visits) as H1
    by (apply elem_of_cons; left; reflexivity).
  assert (handle_get_int x_store 0%nat kIsProxyProperty = 0) as H2
    by (vm_compute; reflexivity).
  assert (is_Some (x_store !! 0%nat)) as H3 by (vm_compute; eexists; reflexivity).
  split; [exact H1 | split; [exact H2 | split; [exact H3 |]]].
  exact (proj1 (generateIfNotExistsAll_tags (x_env true) x_world_empty x_store x_visits)
           {| visitedClip := 0%nat; visitedParent := 0%nat |} H1 H2 H3).
Defined.

(** The project [/proj] in which [proxies] cannot be made. *)
Lemma marker_outside_proxies_witness :
  projectFolder (x_env true) ≠ ""
  ∧ Qt.dirExists x_world_locked (Qt.QDir (projectFolder (x_env true))) = true
  ∧ fs x_world_locked !! projectProxies (x_env true) = None
  ∧ (projectProxies (x_env true) ∈ denied x_world_locked)
  ∧ (dir (x_env true) x_world_locked).1 = "/proj"
  ∧ filePending (x_env true)
      (generateVideoProxy (x_env true) x_world_locked x_clip false Automatic
         {| qx := 0; qy := 0 |} false)
      x_clip = false.
Proof.
  assert (projectFolder (x_env true) ≠ "") as H1 by by_evaluation.
  assert (Qt.dirExists x_world_locked (Qt.QDir (projectFolder (x_env true))) = true)
    as H2 by (vm_compute; reflexivity).
  assert (fs x_world_locked !! projectProxies (x_env true) = None) as H4
    by (vm_compute; reflexivity).
  assert (projectProxies (x_env true) ∈ denied x_world_locked) as H5 by by_evaluation.
  assert (Qt.filePath (Qt.QDir (proxyFolder (settings (x_env true))))
            (getHash (x_env true) x_clip +:+ kProxyPendingVideoExtension)
          ≠ Qt.filePath (Qt.QDir (projectFolder (x_env true)))
              (getHash (x_env true) x_clip +:+ kProxyPendingVideoExtension)) as H8
    by by_evaluation.
  split; [exact H1 | split; [exact H2 | split; [exact H4 | split; [exact H5 |]]]].
  pose proof (marker_outside_proxies (x_env true) x_world_locked x_clip false Automatic
                {| qx := 0; qy := 0 |} false H1 H2 eq_refl H4 H5 eq_refl eq_refl H8)
    as [Ed [_ Hp]].
  split; [exact Ed | exact Hp].
Defined.
